(** * Matrix multiplication benchmark (C implementation)

    A shallow embedding of [code/c/matrix_mult.c] (the naive triple-loop
    kernel) and of [code/c/benchmark.c] (the measurement harness), with the
    properties the specification states about them.

    Conventions of the embedding.
    - A C [int] is a [Z]; every [int] operation of the source is written
      with its 32-bit two's-complement wrap-around ([iadd], [imul]).
    - A buffer reached through a [float*] is a total map from element
      offsets to values; [C[p] = v] is [store].  The three buffers of a call
      are distinct objects (callers do not alias them).
    - [float] and [double] arithmetic is an interface ([FloatOps]); the
      IEEE-754 binary32 and binary64 instances are built on the Standard
      Library's [SpecFloat].
    - The C runtime's generator ([srand]/[rand]), the Win32 queries and
      [printf]'s [%.Nf] are interfaces too ([Rng], [Platform], [Stdio]).
    - The file system is a finite map from paths to file contents.  Opening
      an existing file for reading succeeds; [malloc] and opening a file for
      appending are taken to succeed.

    Part I holds the definitions, the parts after it the theorems. *)

From Stdlib Require Import ZArith Lia List Ascii String.
From Stdlib Require Import Floats.SpecFloat.
From stdpp Require Import gmap strings list pretty.

Local Open Scope Z_scope.

(** * Part I: definitions *)

(** ** 32-bit [int] arithmetic *)

Module Int32.

Definition INT_MAX : Z := 2147483647.
Definition INT_MIN : Z := -2147483648.

(** Reduction of a mathematical integer to the [int] it is stored as. *)
Definition wrap (z : Z) : Z := (z + 2147483648) mod 4294967296 - 2147483648.

Definition iadd (a b : Z) : Z := wrap (a + b).
Definition imul (a b : Z) : Z := wrap (a * b).

Definition in_range (z : Z) : Prop := INT_MIN <= z <= INT_MAX.

End Int32.

Import Int32.

(** ** Loops *)

(** [cnt] iterations of [s = body i s; i++] starting from counter [i].  The
    loops modelled with it have the shape [for (i = 0; i < n; i++)] with [n]
    an [int]: the counter stays below [n], so its increment never wraps. *)
Fixpoint for_iter {S : Type} (cnt : nat) (i : Z) (body : Z -> S -> S) (s : S) : S :=
  match cnt with
  | O => s
  | Datatypes.S c => for_iter c (i + 1) body (body i s)
  end.

(** [for (int i = 0; i < n; i++) s = body i s]; no iteration when [n <= 0]. *)
Definition for_lt {S : Type} (n : Z) (body : Z -> S -> S) (s : S) : S :=
  for_iter (Z.to_nat n) 0 body s.

(** [for (int r = r0; r <= hi; ++r) s = body r s].  Here the counter can
    reach [INT_MAX], where [++r] wraps and the loop does not exit; the loop
    is therefore run on fuel, [None] meaning that the fuel ran out. *)
Fixpoint for_le {S : Type} (fuel : nat) (r hi : Z) (body : Z -> S -> S) (s : S) : option S :=
  match fuel with
  | O => None
  | Datatypes.S f =>
      if Z.leb r hi then for_le f (iadd r 1) hi body (body r s) else Some s
  end.

(** ** Buffers *)

Definition buffer (F : Type) : Type := Z -> F.

(** [m[p] = v] *)
Definition store {F : Type} (m : buffer F) (p : Z) (v : F) : buffer F :=
  fun q => if Z.eqb q p then v else m q.

(** A sequence of writes applied to a buffer, in order. *)
Definition apply_writes {F : Type} (ws : list (Z * F)) (m : buffer F) : buffer F :=
  fold_left (fun m w => store m (fst w) (snd w)) ws m.

(** The value the last write to cell [p] stored, if any write went there. *)
Fixpoint last_write {F : Type} (ws : list (Z * F)) (p : Z) : option F :=
  match ws with
  | [] => None
  | w :: ws' =>
      match last_write ws' p with
      | Some v => Some v
      | None => if Z.eqb p (fst w) then Some (snd w) else None
      end
  end.

(** ** Floating-point arithmetic *)

Class FloatOps (F : Type) : Type := {
  fzero : F;
  fadd : F -> F -> F;
  fsub : F -> F -> F;
  fmul : F -> F -> F;
  fdiv : F -> F -> F;
  fgtb : F -> F -> bool;     (* [x > y] *)
  f_of_int : Z -> F          (* conversion of an integer value *)
}.

(** IEEE-754 binary formats, round to nearest even. *)
Definition ieee_ops (prec emax : Z) : FloatOps spec_float := {|
  fzero := S754_zero false;
  fadd := SFadd prec emax;
  fsub := SFsub prec emax;
  fmul := SFmul prec emax;
  fdiv := SFdiv prec emax;
  fgtb := fun x y => SFltb y x;
  f_of_int := fun z => binary_normalize prec emax z 0 false
|}.

Definition binary32 : FloatOps spec_float := ieee_ops 24 128.
Definition binary64 : FloatOps spec_float := ieee_ops 53 1024.

(** Equality of two floating-point results as values: the same datum, or
    two zeros (which compare equal whatever their signs). *)
Definition float_eq (x y : spec_float) : Prop :=
  match x, y with
  | S754_zero _, S754_zero _ => True
  | _, _ => x = y
  end.

(** ** The kernel: [matrix_mult.c] *)

Section Kernel.

Context {F : Type} {FO : FloatOps F}.

(** [void matrix_multiplication(const float* A, const float* B, float* C, int n)];
    the result is the content of [C] on return.  The buffers are total maps
    on the integers and the [int] offsets are computed with wrap-around;
    this is the source's behaviour as long as every offset stays inside its
    [n*n]-cell buffer, that is for [n*n <= INT_MAX].  Beyond that bound an
    offset wraps and addresses a cell outside the source's buffer, and what
    the embedding says about such a cell has no counterpart in the source:
    the statements about the content of [C] are made under that bound. *)
Definition matrix_multiplication (A B C : buffer F) (n : Z) : buffer F :=
  for_lt n (fun i C =>
    let row := imul i n in
    for_lt n (fun j C =>
      let acc :=
        for_lt n (fun k acc =>
          fadd acc (fmul (A (iadd row k)) (B (iadd (imul k n) j)))) fzero in
      store C (iadd row j) acc) C) C.

(** The specification's sum: [C[i,j] = Σ_k A[i,k]·B[k,j]] for [k = 0..n-1],
    element [(i,k)] of [A] at offset [i*n+k] and [(k,j)] of [B] at [k*n+j],
    accumulated into one scalar starting from zero, [k] increasing. *)
Definition dot_product (A B : buffer F) (n i j : Z) : F :=
  fold_left (fun acc k => fadd acc (fmul (A (i * n + k)) (B (k * n + j))))
            (seqZ 0 n) fzero.

(** The accumulator of the innermost loop, and the writes to [C] the kernel
    performs, in program order. *)
Definition kernel_acc (A B : buffer F) (n row j : Z) : F :=
  for_lt n (fun k acc =>
    fadd acc (fmul (A (iadd row k)) (B (iadd (imul k n) j)))) fzero.

Definition kernel_writes (A B : buffer F) (n : Z) : list (Z * F) :=
  flat_map (fun i =>
    map (fun j => (iadd (imul i n) j, kernel_acc A B n (imul i n) j)) (seqZ 0 n))
    (seqZ 0 n).

End Kernel.

(** ** C strings and the C runtime's number parsing *)

(** A [const char*] into an argument is the suffix it points at; the empty
    string is the terminating NUL. *)

Definition newline : string := String "010"%char EmptyString.

(** [strchr(p, c)] for a character [c] other than NUL. *)
Fixpoint strchr (p : string) (c : ascii) : option string :=
  match p with
  | EmptyString => None
  | String a rest => if Ascii.eqb a c then Some p else strchr rest c
  end.

(** [++p] *)
Definition next_char (p : string) : string :=
  match p with
  | EmptyString => EmptyString
  | String _ rest => rest
  end.

Definition isspace (c : ascii) : bool :=
  let k := N_of_ascii c in
  (N.leb 9 k && N.leb k 13) || N.eqb k 32.

Definition isdigit (c : ascii) : bool :=
  let k := N_of_ascii c in N.leb 48 k && N.leb k 57.

Definition digit_value (c : ascii) : Z := Z.of_N (N_of_ascii c) - 48.

Fixpoint skip_spaces (s : string) : string :=
  match s with
  | String c rest => if isspace c then skip_spaces rest else s
  | EmptyString => s
  end.

(** The value of the longest run of decimal digits at the start of [s],
    continuing the value [acc]. *)
Fixpoint digits_value (s : string) (acc : Z) : Z :=
  match s with
  | String c rest =>
      if isdigit c then digits_value rest (acc * 10 + digit_value c) else acc
  | EmptyString => acc
  end.

(** [long] is 32 bits wide on the program's platform (Windows). *)
Definition LONG_MAX : Z := 2147483647.
Definition LONG_MIN : Z := -2147483648.

(** [strtol(s, NULL, 10)]: blanks, an optional sign, then decimal digits;
    0 when no digit follows; saturating at the bounds of [long]. *)
Definition strtol (s : string) : Z :=
  let s1 := skip_spaces s in
  let '(neg, s2) :=
    match s1 with
    | String c rest =>
        if Ascii.eqb c "-"%char then (true, rest)
        else if Ascii.eqb c "+"%char then (false, rest)
        else (false, s1)
    | EmptyString => (false, s1)
    end in
  let v := digits_value s2 0 in
  if neg then Z.max LONG_MIN (- v) else Z.min LONG_MAX v.

(** [atoi(s)], which the runtime computes as [(int)strtol(s, NULL, 10)]. *)
Definition atoi (s : string) : Z := wrap (strtol s).

(** ** The harness: [benchmark.c] *)

(** *** Configuration (lines 119-152 of [main]) *)

Record Config : Type := mkConfig {
  cfg_sizes : list Z;
  cfg_runs : Z;
  cfg_out : string;
  cfg_seed : Z
}.

Definition sizes_default : list Z := [64; 128; 256; 512; 1024].

(** The loop [while ( *p && nsizes < 64) { sizes[nsizes++] = (int)strtol(p, NULL, 10);
    p = strchr(p, ','); if (!p) break; ++p; }], with [room = 64 - nsizes];
    the result lists the entries stored from this point on. *)
Fixpoint parse_sizes (room : nat) (p : string) : list Z :=
  match room with
  | O => []
  | Datatypes.S room' =>
      match p with
      | EmptyString => []
      | String _ _ =>
          wrap (strtol p) ::
          match strchr p ","%char with
          | None => []
          | Some q => parse_sizes room' (next_char q)
          end
      end
  end.

(** [argv[k]], for [k < argc]. *)
Definition arg (argv : list string) (k : nat) : string := nth k argv EmptyString.

Definition resolve_config (argv : list string) : Config :=
  let argc := Z.of_nat (length argv) in
  let sizes :=
    if Z.ltb 1 argc && negb (String.eqb (arg argv 1) EmptyString)
    then parse_sizes 64 (arg argv 1) else [] in
  let sizes := if Nat.eqb (length sizes) 0 then sizes_default else sizes in
  let runs := if Z.ltb 2 argc then atoi (arg argv 2) else 3 in
  let out := if Z.ltb 3 argc then arg argv 3 else "results_raw.csv"%string in
  let seed := if Z.ltb 4 argc then atoi (arg argv 4) else 27 in
  mkConfig sizes runs out seed.

(** *** The output file *)

Definition HEADER : string :=
  ("run_id;language;size;run_idx;time_ms;cpu_pct;peak_mib" +:+ newline)%string.

(** [f = fopen(path, "a"); <write text>; fclose(f);] *)
Definition append_file (path text : string) (fs : gmap string string) : gmap string string :=
  <[path := (default EmptyString (fs !! path) +:+ text)%string]> fs.

(** [static void write_header_if_needed(const char* path)] *)
Definition write_header_if_needed (path : string) (fs : gmap string string) : gmap string string :=
  match fs !! path with
  | Some _ => fs                       (* [fopen(path, "r")] succeeded *)
  | None => append_file path HEADER fs
  end.

(** *** The environment *)

(** The C runtime's pseudo-random generator, a process-global state. *)
Class Rng (G : Type) : Type := {
  srand : Z -> G;
  rand : G -> Z * G;
  RAND_MAX : Z
}.

Record FILETIME : Type := mkFILETIME { dwLowDateTime : Z; dwHighDateTime : Z }.

(** The Win32 queries of the harness, over a state [W] of the outside world,
    and the content of freshly allocated memory. *)
Class Platform (W F : Type) : Type := {
  QueryPerformanceFrequency : W -> Z;
  QueryPerformanceCounter : W -> Z * W;
  GetProcessTimes : W -> (FILETIME * FILETIME) * W;   (* kernel, user *)
  GetSystemInfo : W -> Z;                              (* dwNumberOfProcessors *)
  GetProcessMemoryInfo : W -> option Z * W;            (* WorkingSetSize *)
  GetLocalTime : W -> Z * Z * Z * Z;                   (* wDay, wMonth, wHour, wMinute *)
  malloc_content : W -> buffer F
}.

(** [printf]'s conversion [%.Nf] of a [double]. *)
Class Stdio (D : Type) : Type := {
  fmt_f : nat -> D -> string
}.

(** [%d] and [%02d] *)
Definition fmt_d (z : Z) : string := pretty z.
Definition fmt_02d (z : Z) : string :=
  if Z.leb 0 z && Z.ltb z 10 then ("0" +:+ pretty z)%string else pretty z.

Inductive event : Type :=
  | Malloc (n : Z)        (* a buffer of [n*n] floats is requested *)
  | Free
  | Kernel (n : Z).       (* [matrix_multiplication] is called with size [n] *)

Section Harness.

Context {F : Type} {FO : FloatOps F}.
Context {D : Type} {DO : FloatOps D} {SIO : Stdio D}.
Context {G : Type} {RG : Rng G}.
Context {W : Type} {PF : Platform W F}.

Record BenchRecord : Type := mkRecord {
  rec_run_id : string;
  rec_language : string;
  rec_size : Z;
  rec_run_idx : Z;
  rec_time_ms : D;
  rec_cpu_pct : D;
  rec_peak_mib : D
}.

(** The line [fprintf(f, "%s;%s;%d;%d;%.3f;%.1f;%.2f\n", ...)] writes. *)
Definition format_record (r : BenchRecord) : string :=
  (rec_run_id r +:+ ";" +:+ rec_language r +:+ ";" +:+
   fmt_d (rec_size r) +:+ ";" +:+ fmt_d (rec_run_idx r) +:+ ";" +:+
   fmt_f 3 (rec_time_ms r) +:+ ";" +:+ fmt_f 1 (rec_cpu_pct r) +:+ ";" +:+
   fmt_f 2 (rec_peak_mib r) +:+ newline)%string.

(** The line [printf("n=%d run=%d time=%.2f ms CPU=%.1f%% MEM=%.2f MiB\n", ...)] prints. *)
Definition format_console (r : BenchRecord) : string :=
  ("n=" +:+ fmt_d (rec_size r) +:+ " run=" +:+ fmt_d (rec_run_idx r) +:+
   " time=" +:+ fmt_f 2 (rec_time_ms r) +:+ " ms CPU=" +:+
   fmt_f 1 (rec_cpu_pct r) +:+ "% MEM=" +:+ fmt_f 2 (rec_peak_mib r) +:+
   " MiB" +:+ newline)%string.

(** The state the harness acts on: the file system, the generator, the
    outside world, the console, and a log of the allocations, kernel calls
    and appended records (the log is not program data). *)
Record State : Type := mkState {
  st_fs : gmap string string;
  st_rng : G;
  st_world : W;
  st_console : list string;
  st_events : list event;
  st_records : list BenchRecord
}.

(** [static double now_sec(void)] *)
Definition now_sec (w : W) : D * W :=
  let frequency := QueryPerformanceFrequency w in
  let '(counter, w') := QueryPerformanceCounter w in
  (fdiv (f_of_int counter) (f_of_int frequency), w').

(** [static double proc_cpu_seconds(void)] *)
Definition proc_cpu_seconds (w : W) : D * W :=
  let '((kernel_time, user_time), w') := GetProcessTimes w in
  let kernel_ticks :=
    Z.lor (dwLowDateTime kernel_time) (Z.shiftl (dwHighDateTime kernel_time) 32) in
  let user_ticks :=
    Z.lor (dwLowDateTime user_time) (Z.shiftl (dwHighDateTime user_time) 32) in
  (fdiv (f_of_int ((kernel_ticks + user_ticks) mod 2 ^ 64)) (f_of_int 10000000), w').

(** [static int logical_cpus(void)] *)
Definition logical_cpus (w : W) : Z :=
  let p := GetSystemInfo w in
  if Z.ltb 0 p then wrap p else 1.

(** [static double current_mem_mib(void)] *)
Definition current_mem_mib (w : W) : D * W :=
  let '(pmc, w') := GetProcessMemoryInfo w in
  match pmc with
  | Some working_set => (fdiv (f_of_int working_set) (fmul (f_of_int 1024) (f_of_int 1024)), w')
  | None => (fzero, w')
  end.

(** [static void run_id_str(char* buf, size_t n)], the buffer being the 32
    bytes [main] passes: four fields of at most five digits fit. *)
Definition run_id_str (w : W) : string :=
  let '(day, month, hour, minute) := GetLocalTime w in
  (fmt_02d day +:+ "/" +:+ fmt_02d month +:+ "/" +:+
   fmt_02d hour +:+ "/" +:+ fmt_02d minute)%string.

(** Lines 177-178, the body of the fill loop:
    [A[i] = (float)rand() / RAND_MAX; B[i] = (float)rand() / RAND_MAX;] *)
Definition fill_step (i : Z) (s : buffer F * buffer F * G) : buffer F * buffer F * G :=
  let '(A, B, g) := s in
  let '(r1, g1) := rand g in
  let A := store A i (fdiv (f_of_int r1) (f_of_int RAND_MAX)) in
  let '(r2, g2) := rand g1 in
  let B := store B i (fdiv (f_of_int r2) (f_of_int RAND_MAX)) in
  (A, B, g2).

(** Lines 176-179: [for (int i = 0; i < n * n; i++) { ... }] *)
Definition fill_matrices (n : Z) (s : buffer F * buffer F * G) : buffer F * buffer F * G :=
  for_lt (imul n n) fill_step s.

(** Lines 183-210: one measured run, the body of the loop over [r]. *)
Definition measured_run (out run_id language : string) (ncpu n : Z)
    (A B : buffer F) (r : Z) (s : buffer F * State) : buffer F * State :=
  let '(C, st) := s in
  let '(mem_before, w) := current_mem_mib (st_world st) in
  let '(cpu0, w) := proc_cpu_seconds w in
  let '(t0, w) := now_sec w in
  let C := matrix_multiplication A B C n in
  let '(t1, w) := now_sec w in
  let '(cpu1, w) := proc_cpu_seconds w in
  let '(mem_after, w) := current_mem_mib w in
  let wall := fsub t1 t0 in
  let time_ms := fmul wall (f_of_int 1000) in
  let cpu_pct := fdiv (fmul (f_of_int 100) (fsub cpu1 cpu0)) (fmul wall (f_of_int ncpu)) in
  let peak_mib := if fgtb mem_after mem_before then mem_after else mem_before in
  let record := mkRecord run_id language n r time_ms cpu_pct peak_mib in
  (C, mkState (append_file out (format_record record) (st_fs st))
              (st_rng st) w
              (st_console st ++ [format_console record])
              (st_events st ++ [Kernel n])
              (st_records st ++ [record])).

(** Lines 168-216: the body of the loop over the sizes. *)
Definition size_iteration (fuel : nat) (runs : Z) (out run_id language : string)
    (ncpu n : Z) (st : State) : option State :=
  let A := malloc_content (st_world st) in
  let B := malloc_content (st_world st) in
  let C := malloc_content (st_world st) in
  let '(A, B, g) := fill_matrices n (A, B, st_rng st) in
  let st := mkState (st_fs st) g (st_world st) (st_console st)
                    (st_events st ++ [Malloc n; Malloc n; Malloc n])
                    (st_records st) in
  match for_le fuel 1 runs (measured_run out run_id language ncpu n A B) (C, st) with
  | Some (_, st) =>
      Some (mkState (st_fs st) (st_rng st) (st_world st) (st_console st)
                    (st_events st ++ [Free; Free; Free]) (st_records st))
  | None => None
  end.

(** Lines 167-217: [for (int si = 0; si < nsizes; ++si) { int n = sizes[si]; ... }] *)
Fixpoint sweep (fuel : nat) (runs : Z) (out run_id language : string)
    (ncpu : Z) (sizes : list Z) (st : State) : option State :=
  match sizes with
  | [] => Some st
  | n :: rest =>
      match size_iteration fuel runs out run_id language ncpu n st with
      | Some st' => sweep fuel runs out run_id language ncpu rest st'
      | None => None
      end
  end.

(** Lines 154-219 of [main], from a resolved configuration: the exit status
    and the final state. *)
Definition run_benchmark (fuel : nat) (cfg : Config) (fs : gmap string string) (w : W)
    : option (Z * State) :=
  let g := srand (cfg_seed cfg) in
  let fs := write_header_if_needed (cfg_out cfg) fs in
  let run_id := run_id_str w in
  let language := "C"%string in
  let ncpu := logical_cpus w in
  match sweep fuel (cfg_runs cfg) (cfg_out cfg) run_id language ncpu (cfg_sizes cfg)
              (mkState fs g w [] [] []) with
  | Some st => Some (0, st)
  | None => None
  end.

(** [int main(int argc, char** argv)] *)
Definition main (fuel : nat) (argv : list string) (fs : gmap string string) (w : W)
    : option (Z * State) :=
  run_benchmark fuel (resolve_config argv) fs w.

(** The generator after [k] further draws, and the value of draw number [k]
    (counted from 0). *)
Definition rng_after (g : G) (k : nat) : G := Nat.iter k (fun g => snd (rand g)) g.
Definition draw (g : G) (k : nat) : Z := fst (rand (rng_after g k)).

(** The matrix cell a draw is turned into: [(float)r / RAND_MAX]. *)
Definition cell_of_draw (r : Z) : F := fdiv (f_of_int r) (f_of_int RAND_MAX).

End Harness.

(** ** A concrete environment

    The instances below make the harness executable: the generator of the
    Microsoft C runtime, paired with a count of the draws made, a simulated
    platform, and a [%.Nf] for binary64 values. *)

(** [rand()] of the Microsoft C runtime: a linear congruential generator
    on 32 bits, of which bits 16..30 are returned. *)
Definition msvc_rand (s : Z) : Z * Z :=
  let s' := (s * 214013 + 2531011) mod 4294967296 in
  ((s' / 65536) mod 32768, s').

(** The generator state together with the number of draws made so far. *)
Definition msvc_rng : Rng (Z * nat) := {|
  srand := fun seed => (seed mod 4294967296, O);
  rand := fun g => let '(r, s') := msvc_rand (fst g) in (r, (s', Datatypes.S (snd g)));
  RAND_MAX := 32767
|}.

(** A simulated machine: the world is the performance counter, at 10 MHz,
    advancing by 2.5 ms at each reading; four processors; a working set of
    8 MiB; fresh memory is zeroed. *)
Definition sim_platform : Platform Z spec_float := {|
  QueryPerformanceFrequency := fun _ => 10000000;
  QueryPerformanceCounter := fun w => (w, w + 25000);
  GetProcessTimes := fun w => ((mkFILETIME (w / 4) 0, mkFILETIME (w / 2) 0), w);
  GetSystemInfo := fun _ => 4;
  GetProcessMemoryInfo := fun w => (Some 8388608, w);
  GetLocalTime := fun _ => (30, 10, 11, 34);
  malloc_content := fun _ _ => S754_zero false
|}.

Definition zero_pad (width : nat) (s : string) : string :=
  (String.concat EmptyString (repeat "0"%string (width - String.length s)) +:+ s)%string.

(** [%.Nf] of a binary floating-point value [m * 2^e]: the value times
    [10^N], rounded to the nearest integer (ties to even), printed with the
    point [N] digits from the right. *)
Definition fmt_fixed (digits : nat) (x : spec_float) : string :=
  match x with
  | S754_nan => "nan"%string
  | S754_infinity s => if s then "-inf"%string else "inf"%string
  | S754_zero s =>
      ((if s then "-" else "") +:+ "0." +:+ zero_pad digits EmptyString)%string
  | S754_finite s m e =>
      let scale := 10 ^ Z.of_nat digits in
      let '(num, den) :=
        if Z.leb 0 e then (Z.pos m * 2 ^ e * scale, 1)
        else (Z.pos m * scale, 2 ^ (- e)) in
      let q := num / den in
      let r := num mod den in
      let q :=
        match Z.compare (2 * r) den with
        | Lt => q
        | Gt => q + 1
        | Eq => if Z.even q then q else q + 1
        end in
      ((if s then "-" else "") +:+ pretty (q / scale) +:+ "." +:+
       zero_pad digits (pretty (q mod scale)))%string
  end.

Definition sim_stdio : Stdio spec_float := {| fmt_f := fmt_fixed |}.

(** [main] in the concrete environment: binary32 matrices, binary64 metrics. *)
Definition sim_main (fuel : nat) (argv : list string) (fs : gmap string string) (w : Z) :=
  @main spec_float binary32 spec_float binary64 sim_stdio (Z * nat) msvc_rng
        Z sim_platform fuel argv fs w.

Definition sim_run_benchmark (fuel : nat) (cfg : Config) (fs : gmap string string) (w : Z) :=
  @run_benchmark spec_float binary32 spec_float binary64 sim_stdio (Z * nat) msvc_rng
        Z sim_platform fuel cfg fs w.

(** Matrices given by the list of their cells, row-major; 0.0 elsewhere. *)
Definition buffer_of_ints (l : list Z) : buffer spec_float :=
  fun p => if Z.ltb p 0 then S754_zero false
           else @f_of_int _ binary32 (nth (Z.to_nat p) l 0).

(** ** Notions used in the statements *)

(** Sample matrices: all cells 0.0, all cells 1.0, and the 2-by-2 matrices
    [[1,2],[3,4]] and [[5,6],[7,8]]. *)
Definition zeros : buffer spec_float := fun _ => S754_zero false.
Definition ones : buffer spec_float := fun _ => @f_of_int _ binary32 1.
Definition A2 : buffer spec_float := buffer_of_ints [1; 2; 3; 4].
Definition B2 : buffer spec_float := buffer_of_ints [5; 6; 7; 8].

(** The concatenation of a list of lines. *)
Fixpoint concat_lines (l : list string) : string :=
  match l with
  | [] => EmptyString
  | x :: l' => (x +:+ concat_lines l')%string
  end.

(** The size and run index of a record. *)
Definition record_key {D : Type} (r : @BenchRecord D) : Z * Z :=
  (rec_size r, rec_run_idx r).

(** Size-major, run-minor order with run indices [1..runs]. *)
Definition sweep_keys (sizes : list Z) (runs : Z) : list (Z * Z) :=
  flat_map (fun n => map (fun r => (n, r)) (seqZ 1 runs)) sizes.

(** The number of draws that fill [A] and [B] for each size of a list. *)
Fixpoint fill_draws (sizes : list Z) : nat :=
  match sizes with
  | [] => O
  | n :: rest => (Z.to_nat (2 * (n * n)) + fill_draws rest)%nat
  end.

(** The text of an argument cut at its commas. *)
Fixpoint split_commas (s : string) : list string :=
  match s with
  | EmptyString => [EmptyString]
  | String c rest =>
      if Ascii.eqb c ","%char then EmptyString :: split_commas rest
      else match split_commas rest with
           | t :: ts => String c t :: ts
           | [] => [String c EmptyString]
           end
  end.

Fixpoint drop_last_empty (l : list string) : list string :=
  match l with
  | [] => []
  | x :: l' =>
      match l' with
      | [] => if String.eqb x EmptyString then [] else [x]
      | _ :: _ => x :: drop_last_empty l'
      end
  end.

(** The comma-separated tokens of an argument; nothing follows a final
    comma, and the empty argument has no token. *)
Definition tokens (s : string) : list string := drop_last_empty (split_commas s).

(** Whether a token is a number: an optional sign and one or more decimal
    digits, nothing else. *)
Fixpoint all_digits (s : string) : bool :=
  match s with
  | EmptyString => true
  | String c rest => isdigit c && all_digits rest
  end.

Definition valid_number (tok : string) : bool :=
  match tok with
  | EmptyString => false
  | String c rest =>
      if Ascii.eqb c "-"%char || Ascii.eqb c "+"%char
      then negb (String.eqb rest EmptyString) && all_digits rest
      else all_digits tok
  end.

(** Whether a token starts with a number: a decimal digit after optional
    blanks and an optional sign. *)
Definition starts_with_number (tok : string) : bool :=
  match skip_spaces tok with
  | String c rest =>
      if Ascii.eqb c "-"%char || Ascii.eqb c "+"%char
      then match rest with String d _ => isdigit d | EmptyString => false end
      else isdigit c
  | EmptyString => false
  end.

(** ** Further notions *)

(** The number of occurrences of a character in a string. *)
Fixpoint count_char (c : ascii) (s : string) : nat :=
  match s with
  | EmptyString => O
  | String a rest => ((if Ascii.eqb a c then 1 else 0) + count_char c rest)%nat
  end.

(** A list of texts written with commas between them, and a size list
    written the way a caller passes it as [argv[1]]. *)
Fixpoint join_commas (l : list string) : string :=
  match l with
  | [] => EmptyString
  | x :: l' =>
      match l' with
      | [] => x
      | _ :: _ => (x +:+ String ","%char (join_commas l'))%string
      end
  end.

Definition sizes_argument (l : list Z) : string := join_commas (map fmt_d l).

(** The events of one size iteration with [runs] runs, and of a sweep. *)
Definition size_events (runs n : Z) : list event :=
  [Malloc n; Malloc n; Malloc n] ++ repeat (Kernel n) (Z.to_nat runs) ++ [Free; Free; Free].

Definition sweep_events (sizes : list Z) (runs : Z) : list event :=
  flat_map (size_events runs) sizes.

(** The simulated machine with a process-memory query that always fails. *)
Definition sim_platform_no_meminfo : Platform Z spec_float := {|
  QueryPerformanceFrequency := fun _ => 10000000;
  QueryPerformanceCounter := fun w => (w, w + 25000);
  GetProcessTimes := fun w => ((mkFILETIME (w / 4) 0, mkFILETIME (w / 2) 0), w);
  GetSystemInfo := fun _ => 4;
  GetProcessMemoryInfo := fun w => (None, w);
  GetLocalTime := fun _ => (30, 10, 11, 34);
  malloc_content := fun _ _ => S754_zero false
|}.

(** The 64-bit tick count a [FILETIME] stands for. *)
Definition filetime_ticks (t : FILETIME) : Z :=
  dwLowDateTime t + 4294967296 * dwHighDateTime t.

Definition is_dword (z : Z) : Prop := 0 <= z < 4294967296.

(** ** The output file read back *)

(** The lines of a text: the pieces that its line breaks end, in order (and
    a last piece without line break, if the text has one). *)
Fixpoint lines_of (s : string) : list string :=
  match s with
  | EmptyString => []
  | String c rest =>
      if Ascii.eqb c "010"%char then EmptyString :: lines_of rest
      else match lines_of rest with
           | l :: ls => String c l :: ls
           | [] => [String c EmptyString]
           end
  end.

(** The fields of a line: the pieces between its separators. *)
Fixpoint split_on (sep : ascii) (s : string) : list string :=
  match s with
  | EmptyString => [EmptyString]
  | String c rest =>
      if Ascii.eqb c sep then EmptyString :: split_on sep rest
      else match split_on sep rest with
           | t :: ts => String c t :: ts
           | [] => [String c EmptyString]
           end
  end.

(** The size and the run index a line of the output file gives: its third
    and fourth [;]-separated fields, read as decimal numbers. *)
Definition line_key (line : string) : Z * Z :=
  let fields := split_on ";"%char line in
  (atoi (nth 2 fields EmptyString), atoi (nth 3 fields EmptyString)).

(** A record whose line gives it back: its run identifier and language are
    the given ones, and its size and run index are [int]s. *)
Definition readable {D : Type} (run_id : string) (r : @BenchRecord D) : Prop :=
  rec_run_id r = run_id /\ rec_language r = "C"%string /\
  in_range (rec_size r) /\ in_range (rec_run_idx r).

(** The header without its line break. *)
Definition HEADER_LINE : string :=
  "run_id;language;size;run_idx;time_ms;cpu_pct;peak_mib".



(** * Part II: theorems *)

(** ** [int] arithmetic *)

Lemma wrap_in_range z : in_range (wrap z).
Proof.
  unfold in_range, wrap, INT_MIN, INT_MAX.
  pose proof (Z.mod_pos_bound (z + 2147483648) 4294967296). lia.
Qed.

Lemma wrap_small z : in_range z -> wrap z = z.
Proof.
  unfold in_range, wrap, INT_MIN, INT_MAX. intros Hz.
  rewrite Z.mod_small by lia. lia.
Qed.

Lemma iadd_small a b : in_range (a + b) -> iadd a b = a + b.
Proof. apply wrap_small. Qed.

Lemma imul_small a b : in_range (a * b) -> imul a b = a * b.
Proof. apply wrap_small. Qed.

(** ** Loops as folds *)

Lemma for_iter_fold {S : Type} (body : Z -> S -> S) cnt :
  forall i s,
    for_iter cnt i body s = fold_left (fun s k => body k s) (seqZ i (Z.of_nat cnt)) s.
Proof.
  induction cnt as [|cnt IH]; intros i s.
  - reflexivity.
  - rewrite seqZ_cons by lia. cbn [for_iter fold_left].
    rewrite IH. do 2 f_equal; lia.
Qed.

Lemma for_lt_fold {S : Type} (body : Z -> S -> S) n s :
  for_lt n body s = fold_left (fun s k => body k s) (seqZ 0 n) s.
Proof.
  unfold for_lt. rewrite for_iter_fold.
  destruct (Z.le_gt_cases 0 n) as [Hn|Hn].
  - now rewrite Z2Nat.id.
  - rewrite (seqZ_nil 0 n) by lia.
    replace (Z.to_nat n) with O by lia. reflexivity.
Qed.

Lemma fold_left_ext_in {A B : Type} (f g : A -> B -> A) l :
  (forall a x, In x l -> f a x = g a x) ->
  forall a, fold_left f l a = fold_left g l a.
Proof.
  induction l as [|x l IH]; intros Hfg a; [reflexivity|].
  cbn. rewrite (Hfg a x) by now left.
  apply IH. intros; apply Hfg; now right.
Qed.

Lemma in_seqZ k m n : In k (seqZ m n) <-> m <= k < m + n.
Proof. rewrite <- list_elem_of_In. apply elem_of_seqZ. Qed.

(** ** Buffers and sequences of writes *)

Lemma apply_writes_app {F : Type} (ws1 ws2 : list (Z * F)) m :
  apply_writes (ws1 ++ ws2) m = apply_writes ws2 (apply_writes ws1 m).
Proof. unfold apply_writes. apply fold_left_app. Qed.

Lemma apply_writes_last {F : Type} (ws : list (Z * F)) :
  forall m p,
    apply_writes ws m p = match last_write ws p with Some v => v | None => m p end.
Proof.
  induction ws as [|w ws IH]; intros m p; [reflexivity|].
  cbn [last_write]. change (apply_writes (w :: ws) m) with
    (apply_writes ws (store m (fst w) (snd w))).
  rewrite IH. destruct (last_write ws p); [reflexivity|].
  unfold store. now destruct (p =? fst w).
Qed.

Lemma last_write_none {F : Type} (ws : list (Z * F)) p :
  (forall w, In w ws -> fst w <> p) -> last_write ws p = None.
Proof.
  induction ws as [|w ws IH]; intros Hne; [reflexivity|].
  cbn. rewrite IH by (intros; apply Hne; now right).
  destruct (Z.eqb_spec p (fst w)) as [->|]; [|reflexivity].
  exfalso. now apply (Hne w); [left|].
Qed.

Lemma last_write_in {F : Type} (ws : list (Z * F)) p v :
  last_write ws p = Some v -> In (p, v) ws.
Proof.
  induction ws as [|[q u] ws IH]; cbn; [discriminate|].
  destruct (last_write ws p) as [v'|].
  - intros [= ->]. right. now apply IH.
  - destruct (Z.eqb_spec p q) as [->|]; [|discriminate].
    intros [= ->]. now left.
Qed.

Lemma last_write_unique {F : Type} (ws : list (Z * F)) p v :
  In (p, v) ws -> (forall v', In (p, v') ws -> v' = v) ->
  last_write ws p = Some v.
Proof.
  intros Hin Huniq. destruct (last_write ws p) as [v'|] eqn:E.
  - f_equal. apply Huniq. now apply last_write_in.
  - exfalso. induction ws as [|[q u] ws IH]; [contradiction|].
    cbn in E. destruct (last_write ws p) eqn:E'; [discriminate|].
    destruct Hin as [[= -> ->]|Hin].
    + rewrite Z.eqb_refl in E. discriminate.
    + apply IH; auto. intros; apply Huniq; now right.
Qed.

Lemma apply_writes_map {F X : Type} (f : X -> Z * F) (l : list X) :
  forall m,
    apply_writes (map f l) m = fold_left (fun m x => store m (fst (f x)) (snd (f x))) l m.
Proof. induction l as [|x l IH]; intros m; [reflexivity|]. cbn. apply IH. Qed.

Lemma apply_writes_flat_map {F X : Type} (f : X -> list (Z * F)) (l : list X) :
  forall m,
    apply_writes (flat_map f l) m = fold_left (fun m x => apply_writes (f x) m) l m.
Proof.
  induction l as [|x l IH]; intros m; [reflexivity|].
  cbn [flat_map fold_left]. rewrite apply_writes_app. apply IH.
Qed.

(** ** The kernel *)

Section KernelFacts.

Context {F : Type} {FO : FloatOps F}.

(** The kernel's effect on [C] is that of its writes, in program order. *)
Lemma matrix_multiplication_writes (A B C : buffer F) n :
  matrix_multiplication A B C n = apply_writes (kernel_writes A B n) C.
Proof.
  unfold matrix_multiplication, kernel_writes.
  rewrite for_lt_fold, apply_writes_flat_map.
  apply fold_left_ext_in. intros m i _.
  rewrite for_lt_fold, apply_writes_map. reflexivity.
Qed.

Lemma in_kernel_writes (A B : buffer F) n p v :
  In (p, v) (kernel_writes A B n) <->
  exists i j, 0 <= i < n /\ 0 <= j < n /\
              p = iadd (imul i n) j /\ v = kernel_acc A B n (imul i n) j.
Proof.
  unfold kernel_writes. rewrite in_flat_map. split.
  - intros (i & Hi & Hin). apply in_map_iff in Hin as (j & [= <- <-] & Hj).
    apply in_seqZ in Hi, Hj. exists i, j. repeat split; lia.
  - intros (i & j & Hi & Hj & -> & ->). exists i. split; [apply in_seqZ; lia|].
    apply in_map_iff. exists j. split; [reflexivity|apply in_seqZ; lia].
Qed.

(** Offsets of an [n]-by-[n] matrix whose cells all have [int] offsets. *)
Lemma offset_in_range n i k :
  0 <= n -> n * n <= INT_MAX -> 0 <= i < n -> 0 <= k < n ->
  imul i n = i * n /\ iadd (i * n) k = i * n + k /\ 0 <= i * n + k < n * n.
Proof.
  intros Hn Hnn Hi Hk.
  assert (0 <= i * n + k < n * n) by nia.
  assert (0 <= i * n <= i * n + k) by nia.
  repeat split; try lia.
  - apply imul_small. unfold in_range, INT_MIN. lia.
  - apply iadd_small. unfold in_range, INT_MIN. lia.
Qed.

Lemma kernel_acc_dot_product (A B : buffer F) n i j :
  0 <= n -> n * n <= INT_MAX -> 0 <= i < n -> 0 <= j < n ->
  kernel_acc A B n (imul i n) j = dot_product A B n i j.
Proof.
  intros Hn Hnn Hi Hj. unfold kernel_acc, dot_product.
  rewrite for_lt_fold. apply fold_left_ext_in. intros acc k Hk.
  apply in_seqZ in Hk.
  destruct (offset_in_range n i k) as (-> & -> & _); try lia.
  destruct (offset_in_range n k j) as (-> & -> & _); try lia.
  reflexivity.
Qed.

(** Row-major offsets identify the cell. *)
Lemma offset_injective n i j i' j' :
  0 <= j < n -> 0 <= j' < n -> i * n + j = i' * n + j' -> i = i' /\ j = j'.
Proof. intros Hj Hj' Heq. assert (i = i') by nia. subst. lia. Qed.

Lemma last_write_kernel (A B : buffer F) n i j :
  0 <= n -> n * n <= INT_MAX -> 0 <= i < n -> 0 <= j < n ->
  last_write (kernel_writes A B n) (i * n + j) = Some (dot_product A B n i j).
Proof.
  intros Hn Hnn Hi Hj. apply last_write_unique.
  - apply in_kernel_writes. exists i, j.
    destruct (offset_in_range n i j) as (E1 & E2 & _); try lia.
    rewrite kernel_acc_dot_product by lia. rewrite E1, E2. auto.
  - intros v' (i' & j' & Hi' & Hj' & Hp & ->)%in_kernel_writes.
    destruct (offset_in_range n i' j') as (E1 & E2 & _); try lia.
    rewrite E1, E2 in Hp.
    apply offset_injective in Hp as [-> ->]; try lia.
    apply kernel_acc_dot_product; lia.
Qed.

Lemma last_write_kernel_outside (A B : buffer F) n p :
  0 <= n -> n * n <= INT_MAX -> ~ 0 <= p < n * n ->
  last_write (kernel_writes A B n) p = None.
Proof.
  intros Hn Hnn Hp. apply last_write_none. intros [q v] Hin Hq.
  cbn in Hq; subst q.
  apply in_kernel_writes in Hin as (i & j & Hi & Hj & Hq & _).
  destruct (offset_in_range n i j) as (E1 & E2 & ?); try lia.
  rewrite E1, E2 in Hq. lia.
Qed.

(** Whatever [n], the kernel writes at [int] offsets only. *)
Lemma last_write_kernel_not_int (A B : buffer F) n p :
  ~ in_range p -> last_write (kernel_writes A B n) p = None.
Proof.
  intros Hp. apply last_write_none. intros [q v] Hin Hq.
  cbn in Hq; subst q.
  apply in_kernel_writes in Hin as (i & j & _ & _ & -> & _).
  apply Hp, wrap_in_range.
Qed.

(** C1 (as amended).  For every [n >= 0] whose [n*n] cell offsets are
    representable in an [int] ([n*n <= INT_MAX]) and all row-major [n]-by-[n]
    matrices [A] and [B], [matrix_multiplication(A, B, C, n)] leaves in
    [C[i*n+j]], for all [i], [j] in [[0,n)], the sum over [k = 0..n-1] of
    [A[i*n+k] * B[k*n+j]], accumulated into a single scalar that starts at
    zero, in strictly increasing order of [k]. *)
Theorem matrix_multiplication_correct (A B C : buffer F) (n i j : Z) :
  0 <= n -> n * n <= INT_MAX -> 0 <= i < n -> 0 <= j < n ->
  matrix_multiplication A B C n (i * n + j) = dot_product A B n i j.
Proof.
  intros Hn Hnn Hi Hj.
  rewrite matrix_multiplication_writes, apply_writes_last.
  now rewrite last_write_kernel.
Qed.

(** C8 (as amended).  For every [n >= 0] with [n*n <= INT_MAX] the kernel
    is deterministic and its only effect is on the [n*n] cells of [C]: two
    calls with the same [A], [B] and [n] leave the same content in every
    cell of the output matrix, whatever [C] held before; every other cell
    of [C] is left as it was; hence a cell of [C] on return depends on
    [A], [B], [n] and that cell's previous content alone.  ([A] and [B]
    are read-only arguments of the embedding: the result of a call is the
    new content of [C].) *)
Theorem matrix_multiplication_deterministic (A B : buffer F) (n : Z) :
  0 <= n -> n * n <= INT_MAX ->
  (forall C1 C2 p, 0 <= p < n * n ->
     matrix_multiplication A B C1 n p = matrix_multiplication A B C2 n p) /\
  (forall C p, ~ 0 <= p < n * n -> matrix_multiplication A B C n p = C p) /\
  (forall C1 C2 p, C1 p = C2 p ->
     matrix_multiplication A B C1 n p = matrix_multiplication A B C2 n p).
Proof.
  intros Hn Hnn.
  assert (Hin : forall C1 C2 p, 0 <= p < n * n ->
            matrix_multiplication A B C1 n p = matrix_multiplication A B C2 n p).
  { intros C1 C2 p Hp. rewrite !matrix_multiplication_writes, !apply_writes_last.
    assert (p = (p / n) * n + p mod n) as Ep
      by (pose proof (Z.div_mod p n ltac:(nia)); lia).
    assert (0 <= p mod n < n) by (apply Z.mod_pos_bound; nia).
    assert (0 <= p / n < n).
    { split; [apply Z.div_pos; nia|]. apply Z.div_lt_upper_bound; nia. }
    rewrite Ep, last_write_kernel by lia. reflexivity. }
  assert (Hout : forall C p, ~ 0 <= p < n * n ->
            matrix_multiplication A B C n p = C p).
  { intros C p Hp. rewrite matrix_multiplication_writes, apply_writes_last.
    now rewrite last_write_kernel_outside. }
  split; [exact Hin|]. split; [exact Hout|].
  intros C1 C2 p HC.
  destruct (Z_le_dec 0 p) as [H0|H0]; [destruct (Z_lt_dec p (n * n)) as [H1|H1]|].
  - apply Hin. lia.
  - rewrite !Hout by lia. exact HC.
  - rewrite !Hout by lia. exact HC.
Qed.

End KernelFacts.

(** ** The kernel on binary32 matrices *)

Lemma ieee_add_zero_l prec emax x :
  float_eq (SFadd prec emax (S754_zero false) x) x.
Proof. destruct x as [s|s| |s m e]; cbn; try reflexivity. now destruct s. Qed.

Lemma dot_product_zeros n i j :
  @dot_product _ binary32 zeros zeros n i j = S754_zero false.
Proof.
  unfold dot_product. induction (seqZ 0 n) as [|k l IH]; [reflexivity|exact IH].
Qed.

(** The product of the specification's worked example:
    [[1,2],[3,4]] * [[5,6],[7,8]] = [[19,22],[43,50]]. *)
Example matrix_multiplication_2x2 :
  map (@matrix_multiplication _ binary32 A2 B2 zeros 2) [0; 1; 2; 3]
  = map (@f_of_int _ binary32) [19; 22; 43; 50].
Proof. vm_compute. reflexivity. Qed.

(** C7.  The kernel is total and writes within bounds at the boundary.
    With [n = 0] it returns having written nothing: [C] is unchanged.  With
    [n = 1] it returns having written one cell, [C[0]], with the value
    [0.0f + A[0]*B[0]], which equals [A[0]*B[0]] (when the product is a
    negative zero the stored zero is positive; the two compare equal). *)
Theorem kernel_boundary (A B C : buffer spec_float) :
  @matrix_multiplication _ binary32 A B C 0 = C /\
  @kernel_writes _ binary32 A B 0 = [] /\
  exists v,
    @kernel_writes _ binary32 A B 1 = [(0, v)] /\
    @matrix_multiplication _ binary32 A B C 1 = store C 0 v /\
    (forall p, p <> 0 -> @matrix_multiplication _ binary32 A B C 1 p = C p) /\
    @matrix_multiplication _ binary32 A B C 1 0 = v /\
    float_eq v (@fmul _ binary32 (A 0) (B 0)).
Proof.
  split; [reflexivity|]. split; [reflexivity|].
  exists (@fadd _ binary32 (@fzero _ binary32) (@fmul _ binary32 (A 0) (B 0))).
  split; [reflexivity|]. split; [reflexivity|]. split; [|split].
  - intros p Hp. change (store C 0 (@fadd _ binary32 (@fzero _ binary32)
      (@fmul _ binary32 (A 0) (B 0))) p = C p).
    unfold store. destruct (Z.eqb_spec p 0); [contradiction|reflexivity].
  - reflexivity.
  - apply ieee_add_zero_l.
Qed.

(** C1, counterexample.  With [n = 46341] the offset [n*n - 1] of the last
    cell exceeds [INT_MAX]: the kernel's [int] index wraps, cell
    [(46340, 46340)] of [C] is never written and keeps its previous content
    1.0, while the sum of the products is 0.0. *)
Lemma matrix_multiplication_large_n :
  0 <= 46341 /\ 0 <= 46340 < 46341 /\
  @matrix_multiplication _ binary32 zeros zeros ones 46341 (46340 * 46341 + 46340)
  <> @dot_product _ binary32 zeros zeros 46341 46340 46340.
Proof.
  split; [lia|]. split; [lia|].
  rewrite matrix_multiplication_writes, apply_writes_last.
  rewrite last_write_kernel_not_int by (unfold in_range, INT_MIN, INT_MAX; lia).
  rewrite dot_product_zeros. vm_compute. discriminate.
Qed.

Lemma matrix_multiplication_correct_witness :
  0 <= 2 /\ 2 * 2 <= INT_MAX /\ 0 <= 1 < 2 /\ 0 <= 0 < 2 /\
  @matrix_multiplication _ binary32 A2 B2 zeros 2 (1 * 2 + 0)
  = @dot_product _ binary32 A2 B2 2 1 0.
Proof.
  assert (H0 : 0 <= 2) by lia.
  assert (H1 : 2 * 2 <= INT_MAX) by (unfold INT_MAX; lia).
  assert (H2 : 0 <= 1 < 2) by lia.
  assert (H3 : 0 <= 0 < 2) by lia.
  refine (conj H0 (conj H1 (conj H2 (conj H3 _)))).
  exact (@matrix_multiplication_correct _ binary32 A2 B2 zeros 2 1 0 H0 H1 H2 H3).
Defined.

Lemma matrix_multiplication_deterministic_witness :
  0 <= 2 /\ 2 * 2 <= INT_MAX /\ 0 <= 3 < 2 * 2 /\ ~ 0 <= 7 < 2 * 2 /\
  zeros 7 = zeros 7 /\
  @matrix_multiplication _ binary32 A2 B2 zeros 2 3
  = @matrix_multiplication _ binary32 A2 B2 ones 2 3 /\
  @matrix_multiplication _ binary32 A2 B2 ones 2 7 = ones 7 /\
  @matrix_multiplication _ binary32 A2 B2 zeros 2 7
  = @matrix_multiplication _ binary32 A2 B2 zeros 2 7.
Proof.
  assert (H0 : 0 <= 2) by lia.
  assert (H1 : 2 * 2 <= INT_MAX) by (unfold INT_MAX; lia).
  assert (H2 : 0 <= 3 < 2 * 2) by lia.
  assert (H3 : ~ 0 <= 7 < 2 * 2) by lia.
  destruct (@matrix_multiplication_deterministic _ binary32 A2 B2 2 H0 H1)
    as (Hin & Hout & Hcell).
  exact (conj H0 (conj H1 (conj H2 (conj H3 (conj eq_refl
           (conj (Hin zeros ones 3 H2)
              (conj (Hout ones 7 H3) (Hcell zeros zeros 7 eq_refl)))))))).
Defined.

(** C8, counterexample.  With [n = 46341], two calls with the same [A], [B]
    and [n] leave different contents in cell [(46340, 46340)] of the output
    matrix when [C] held different values there before: the cell's offset
    exceeds [INT_MAX], the kernel's [int] index wraps, and the cell is
    never written. *)
Lemma matrix_multiplication_large_n_differs :
  0 <= 46341 /\ 0 <= 46340 * 46341 + 46340 < 46341 * 46341 /\
  @matrix_multiplication _ binary32 zeros zeros zeros 46341 (46340 * 46341 + 46340)
  <> @matrix_multiplication _ binary32 zeros zeros ones 46341 (46340 * 46341 + 46340).
Proof.
  split; [lia|]. split; [lia|].
  rewrite !matrix_multiplication_writes, !apply_writes_last.
  rewrite last_write_kernel_not_int by (unfold in_range, INT_MIN, INT_MAX; lia).
  vm_compute. discriminate.
Qed.

(** ** Strings *)

Lemma string_app_cons x (a b : string) :
  (String x a +:+ b = String x (a +:+ b))%string.
Proof. reflexivity. Qed.

Lemma string_app_assoc (a b c : string) :
  ((a +:+ b) +:+ c = a +:+ (b +:+ c))%string.
Proof. induction a as [|x a IH]; [reflexivity|]. rewrite !string_app_cons. now f_equal. Qed.

Lemma string_app_nil_r (a : string) : (a +:+ EmptyString = a)%string.
Proof. induction a as [|x a IH]; [reflexivity|]. rewrite !string_app_cons. now f_equal. Qed.

Lemma concat_lines_app (l1 l2 : list string) :
  concat_lines (l1 ++ l2) = (concat_lines l1 +:+ concat_lines l2)%string.
Proof.
  induction l1 as [|x l1 IH]; cbn [concat_lines app]; [reflexivity|].
  now rewrite IH, string_app_assoc.
Qed.

(** ** The run loop *)

Lemma for_le_complete {S : Type} (body : Z -> S -> S) hi :
  hi < INT_MAX ->
  forall fuel r s,
    INT_MIN <= r -> (Z.to_nat (hi + 1 - r) < fuel)%nat ->
    for_le fuel r hi body s
    = Some (fold_left (fun s k => body k s) (seqZ r (hi + 1 - r)) s).
Proof.
  intros Hhi. induction fuel as [|fuel IH]; intros r s Hr Hfuel; [lia|].
  cbn [for_le]. destruct (Z.leb_spec r hi) as [Hle|Hgt].
  - rewrite iadd_small by (unfold in_range, INT_MIN, INT_MAX in *; lia).
    rewrite IH by lia. rewrite (seqZ_cons r) by lia. cbn [fold_left].
    do 3 f_equal; lia.
  - rewrite seqZ_nil by lia. reflexivity.
Qed.

Lemma for_le_sound {S : Type} (body : Z -> S -> S) hi :
  hi < INT_MAX ->
  forall fuel r s s',
    INT_MIN <= r ->
    for_le fuel r hi body s = Some s' ->
    s' = fold_left (fun s k => body k s) (seqZ r (hi + 1 - r)) s.
Proof.
  intros Hhi. induction fuel as [|fuel IH]; intros r s s' Hr; [discriminate|].
  cbn [for_le]. destruct (Z.leb_spec r hi) as [Hle|Hgt].
  - rewrite iadd_small by (unfold in_range, INT_MIN, INT_MAX in *; lia).
    intros Hs'. apply IH in Hs'; [|lia]. subst s'.
    rewrite (seqZ_cons r) by lia. cbn [fold_left]. do 2 f_equal; lia.
  - intros [= <-]. rewrite seqZ_nil by lia. reflexivity.
Qed.

(** With [hi = INT_MAX] the counter wraps instead of exceeding the bound:
    the loop does not exit. *)
Lemma for_le_diverges {S : Type} (body : Z -> S -> S) :
  forall fuel r s, in_range r -> for_le fuel r INT_MAX body s = None.
Proof.
  induction fuel as [|fuel IH]; intros r s Hr; [reflexivity|].
  cbn [for_le]. destruct (Z.leb_spec r INT_MAX) as [_|Hgt].
  - apply IH, wrap_in_range.
  - unfold in_range in Hr. lia.
Qed.

Lemma for_le_from_one {S : Type} (body : Z -> S -> S) fuel hi s s' :
  hi <= INT_MAX ->
  for_le fuel 1 hi body s = Some s' ->
  hi < INT_MAX /\ s' = fold_left (fun s k => body k s) (seqZ 1 hi) s.
Proof.
  intros Hhi Hs'.
  assert (hi < INT_MAX) as Hlt.
  { destruct (Z.eq_dec hi INT_MAX) as [->|]; [|lia].
    rewrite for_le_diverges in Hs'; [discriminate|].
    unfold in_range, INT_MIN, INT_MAX. lia. }
  split; [exact Hlt|].
  apply for_le_sound in Hs'; [|exact Hlt|unfold INT_MIN; lia].
  now replace (hi + 1 - 1) with hi in Hs' by lia.
Qed.

Lemma length_sweep_keys sizes runs :
  length (sweep_keys sizes runs) = (length sizes * Z.to_nat runs)%nat.
Proof.
  induction sizes as [|n sizes IH]; [reflexivity|].
  cbn [sweep_keys flat_map length]. rewrite length_app, length_map, length_seqZ.
  unfold sweep_keys in IH. rewrite IH. lia.
Qed.

(** ** The output file *)

Lemma append_file_lookup path text (fs : gmap string string) :
  append_file path text fs !! path
  = Some (default EmptyString (fs !! path) +:+ text)%string.
Proof. unfold append_file. apply lookup_insert_eq. Qed.

Lemma write_header_lookup path (fs : gmap string string) :
  write_header_if_needed path fs !! path = Some (default HEADER (fs !! path)).
Proof.
  unfold write_header_if_needed. destruct (fs !! path) as [c|] eqn:E.
  - exact E.
  - rewrite append_file_lookup, E. reflexivity.
Qed.

(** ** The harness *)

Section HarnessFacts.

Context {F : Type} {FO : FloatOps F}.
Context {D : Type} {DO : FloatOps D} {SIO : Stdio D}.
Context {G : Type} {RG : Rng G}.
Context {W : Type} {PF : Platform W F}.

Lemma rng_after_add (g : G) a b :
  rng_after (rng_after g a) b = rng_after g (a + b).
Proof. unfold rng_after. rewrite (Nat.add_comm a b). now rewrite Nat.iter_add. Qed.

Lemma draw_after (g : G) a k : draw (rng_after g a) k = draw g (a + k).
Proof. unfold draw. now rewrite rng_after_add. Qed.

Lemma fill_step_eq i (A B : buffer F) (g : G) :
  fill_step i (A, B, g)
  = (store A i (@cell_of_draw F FO G RG (draw g 0)),
     store B i (@cell_of_draw F FO G RG (draw g 1)),
     rng_after g 2).
Proof.
  unfold fill_step, cell_of_draw, draw, rng_after. cbv [Nat.iter nat_rect].
  destruct (rand g) as [r1 g1]. cbn [fst snd].
  destruct (rand g1) as [r2 g2]. reflexivity.
Qed.

Lemma fill_iter_spec cnt :
  forall i0 (A B : buffer F) (g : G),
    let r := for_iter cnt i0 fill_step (A, B, g) in
    r.2 = rng_after g (2 * cnt) /\
    (forall k, i0 <= k < i0 + Z.of_nat cnt ->
       r.1.1 k = @cell_of_draw F FO G RG (draw g (2 * Z.to_nat (k - i0))) /\
       r.1.2 k = @cell_of_draw F FO G RG (draw g (2 * Z.to_nat (k - i0) + 1))) /\
    (forall k, ~ i0 <= k < i0 + Z.of_nat cnt -> r.1.1 k = A k /\ r.1.2 k = B k).
Proof.
  induction cnt as [|cnt IH]; intros i0 A B g.
  - cbn. split; [reflexivity|]. split; [lia|auto].
  - cbn [for_iter]. rewrite fill_step_eq.
    specialize (IH (i0 + 1)
      (store A i0 (@cell_of_draw F FO G RG (draw g 0)))
      (store B i0 (@cell_of_draw F FO G RG (draw g 1))) (rng_after g 2)).
    cbn zeta in *. destruct IH as (Hg & Hin & Hout).
    split; [|split].
    + rewrite Hg, rng_after_add. f_equal. lia.
    + intros k Hk. destruct (Z.eq_dec k i0) as [->|Hne].
      * destruct (Hout i0) as [-> ->]; [lia|]. unfold store.
        rewrite Z.eqb_refl. replace (Z.to_nat (i0 - i0)) with 0%nat by lia.
        split; reflexivity.
      * destruct (Hin k) as [-> ->]; [lia|]. rewrite !draw_after.
        split; do 2 f_equal; lia.
    + intros k Hk. destruct (Hout k) as [-> ->]; [lia|]. unfold store.
      destruct (Z.eqb_spec k i0); [lia|]. split; reflexivity.
Qed.

(** The fill of one size consumes [2*n*n] draws. *)
Lemma fill_matrices_rng (n : Z) (A B : buffer F) (g : G) :
  n * n <= INT_MAX ->
  (fill_matrices n (A, B, g)).2 = rng_after g (Z.to_nat (2 * (n * n))).
Proof.
  intros Hnn. unfold fill_matrices, for_lt.
  assert (0 <= n * n) by nia.
  rewrite imul_small by (unfold in_range, INT_MIN; lia).
  destruct (fill_iter_spec (Z.to_nat (n * n)) 0 A B g) as (Hg & _).
  cbn zeta in Hg. rewrite Hg. f_equal. lia.
Qed.

(** C2 (as amended).  For every size [n] with [n*n <= INT_MAX], the fill
    consumes the generator's stream one cell of [A] then the same cell of
    [B], cell after cell in row-major order: draw number [2k] goes to
    [A[k]] and draw number [2k+1] to [B[k]] for every [k < n*n], each as
    [(float)r / RAND_MAX]; no other cell is written, and [2*n*n] draws are
    consumed. *)
Theorem fill_matrices_draw_order (n : Z) (A B : buffer F) (g : G) :
  n * n <= INT_MAX ->
  let r := fill_matrices n (A, B, g) in
  r.2 = rng_after g (Z.to_nat (2 * (n * n))) /\
  (forall k, 0 <= k < n * n ->
     r.1.1 k = @cell_of_draw F FO G RG (draw g (Z.to_nat (2 * k))) /\
     r.1.2 k = @cell_of_draw F FO G RG (draw g (Z.to_nat (2 * k + 1)))) /\
  (forall k, ~ 0 <= k < n * n -> r.1.1 k = A k /\ r.1.2 k = B k).
Proof.
  intros Hnn. unfold fill_matrices, for_lt.
  assert (0 <= n * n) by nia.
  rewrite imul_small by (unfold in_range, INT_MIN; lia).
  destruct (fill_iter_spec (Z.to_nat (n * n)) 0 A B g) as (Hg & Hin & Hout).
  cbn zeta in *. split; [|split].
  - rewrite Hg. f_equal. lia.
  - intros k Hk. destruct (Hin k) as [-> ->]; [lia|].
    split; do 2 f_equal; lia.
  - intros k Hk. apply Hout. lia.
Qed.

End HarnessFacts.

Section SweepFacts.

Context {F : Type} {FO : FloatOps F}.
Context {D : Type} {DO : FloatOps D} {SIO : Stdio D}.
Context {G : Type} {RG : Rng G}.
Context {W : Type} {PF : Platform W F}.

Ltac split_lets :=
  repeat match goal with
         | |- context [match ?e with pair _ _ => _ end] => destruct e
         | |- context [match ?e with Some _ => _ | None => _ end] => destruct e
         end.

(** One measured run calls the kernel once and appends one record of the
    current size and run index; the generator is not touched. *)
Lemma measured_run_effect out run_id language ncpu n (A B : buffer F) r C
    (st : @State D G W) :
  exists rec : @BenchRecord D,
    record_key rec = (n, r) /\
    let st' := (measured_run out run_id language ncpu n A B r (C, st)).2 in
    st_records st' = st_records st ++ [rec] /\
    st_fs st' = append_file out (format_record rec) (st_fs st) /\
    st_rng st' = st_rng st /\
    st_events st' = st_events st ++ [Kernel n].
Proof.
  unfold measured_run.
  split_lets; eexists; cbn; repeat split; reflexivity.
Qed.

Lemma runs_fold out run_id language ncpu n (A B : buffer F) rs :
  forall C (st : @State D G W) c,
    st_fs st !! out = Some c ->
    let st' := (fold_left (fun s r => measured_run out run_id language ncpu n A B r s)
                          rs (C, st)).2 in
    exists recs,
      st_records st' = st_records st ++ recs /\
      map record_key recs = map (fun r => (n, r)) rs /\
      st_fs st' !! out = Some (c +:+ concat_lines (map format_record recs))%string /\
      st_rng st' = st_rng st /\
      st_events st' = st_events st ++ repeat (Kernel n) (length rs).
Proof.
  induction rs as [|r rs IH]; intros C st c Hc; cbn zeta.
  - exists []. cbn. rewrite !app_nil_r, string_app_nil_r. auto.
  - cbn [fold_left].
    destruct (measured_run_effect out run_id language ncpu n A B r C st)
      as (rec & Hkey & Hrec & Hfs & Hrng & Hev).
    destruct (measured_run out run_id language ncpu n A B r (C, st)) as [C1 st1].
    cbn [snd] in *.
    destruct (IH C1 st1 (c +:+ format_record rec)%string) as (recs & H1 & H2 & H3 & H4 & H5).
    { rewrite Hfs, append_file_lookup, Hc. reflexivity. }
    exists (rec :: recs). cbn [map concat_lines length repeat].
    rewrite H1, Hrec, H2, Hkey, H3, H4, Hrng, H5, Hev.
    rewrite <- !app_assoc, string_app_assoc. auto.
Qed.

Lemma size_iteration_effect fuel runs out run_id language ncpu n
    (st st' : @State D G W) c :
  runs <= INT_MAX ->
  st_fs st !! out = Some c ->
  size_iteration fuel runs out run_id language ncpu n st = Some st' ->
  runs < INT_MAX /\
  exists recs,
    st_records st' = st_records st ++ recs /\
    map record_key recs = map (fun r => (n, r)) (seqZ 1 runs) /\
    st_fs st' !! out = Some (c +:+ concat_lines (map format_record recs))%string.
Proof.
  intros Hruns Hc. unfold size_iteration.
  destruct (fill_matrices n _) as [[A B] g].
  destruct (for_le _ _ _ _ _) as [[C1 st1]|] eqn:E; [|discriminate].
  intros [= <-]. cbn [st_records st_fs].
  apply for_le_from_one in E as [Hlt E]; [|exact Hruns]. split; [exact Hlt|].
  match type of E with
  | _ = fold_left _ _ (?C0, ?st0) =>
      destruct (runs_fold out run_id language ncpu n A B (seqZ 1 runs) C0 st0 c Hc)
        as (recs & H1 & H2 & H3 & _)
  end.
  cbn zeta in *. rewrite <- E in *. cbn [snd st_records] in *.
  exists recs. auto.
Qed.

Lemma size_iteration_complete fuel runs out run_id language ncpu n
    (st : @State D G W) :
  runs < INT_MAX -> (Z.to_nat runs < fuel)%nat ->
  is_Some (size_iteration fuel runs out run_id language ncpu n st).
Proof.
  intros Hruns Hfuel. unfold size_iteration.
  destruct (fill_matrices n _) as [[A B] g].
  rewrite for_le_complete; [|exact Hruns|unfold INT_MIN; lia|lia].
  destruct (fold_left _ _ _). eauto.
Qed.

Lemma sweep_effect fuel runs out run_id language ncpu sizes :
  runs <= INT_MAX ->
  forall (st st' : @State D G W) c,
    st_fs st !! out = Some c ->
    sweep fuel runs out run_id language ncpu sizes st = Some st' ->
    exists recs,
      st_records st' = st_records st ++ recs /\
      map record_key recs = sweep_keys sizes runs /\
      st_fs st' !! out = Some (c +:+ concat_lines (map format_record recs))%string.
Proof.
  intros Hruns. induction sizes as [|n sizes IH]; intros st st' c Hc; cbn [sweep].
  - intros [= <-]. exists []. cbn. rewrite app_nil_r, string_app_nil_r. auto.
  - destruct (size_iteration _ _ _ _ _ _ _ _) as [st1|] eqn:E; [|discriminate].
    intros Hs.
    eapply size_iteration_effect in E as (_ & recs1 & H1 & H2 & H3); eauto.
    destruct (IH _ _ _ H3 Hs) as (recs2 & K1 & K2 & K3).
    exists (recs1 ++ recs2). cbn [sweep_keys flat_map].
    rewrite K1, H1, K3, !map_app, H2, K2, concat_lines_app.
    rewrite <- app_assoc, string_app_assoc. auto.
Qed.

Lemma sweep_complete fuel runs out run_id language ncpu sizes :
  runs < INT_MAX -> (Z.to_nat runs < fuel)%nat ->
  forall st : @State D G W,
    is_Some (sweep fuel runs out run_id language ncpu sizes st).
Proof.
  intros Hruns Hfuel. induction sizes as [|n sizes IH]; intros st; cbn [sweep].
  - eauto.
  - destruct (size_iteration_complete fuel runs out run_id language ncpu n st)
      as [st1 ->]; auto.
Qed.


(** C9.  [write_header_if_needed] writes the header only when the output
    file does not exist.  A file that exists is left as it is; if it exists
    and is empty, it stays empty, so that after the sweep it holds the
    record lines alone, with no header line before them. *)
Theorem header_only_when_absent (path : string) (fs : gmap string string) :
  (fs !! path = None -> write_header_if_needed path fs !! path = Some HEADER) /\
  (is_Some (fs !! path) -> write_header_if_needed path fs = fs) /\
  (fs !! path = Some EmptyString ->
   write_header_if_needed path fs !! path = Some EmptyString /\
   forall fuel cfg (w : W) status (st : @State D G W),
     cfg_out cfg = path -> cfg_runs cfg <= INT_MAX ->
     run_benchmark (F:=F) fuel cfg fs w = Some (status, st) ->
     st_fs st !! path = Some (concat_lines (map format_record (st_records st)))).
Proof.
  split; [|split].
  - intros E. now rewrite write_header_lookup, E.
  - intros [c E]. unfold write_header_if_needed. now rewrite E.
  - intros E. split; [now rewrite write_header_lookup, E|].
    intros fuel cfg w status st <- Hruns. unfold run_benchmark.
    destruct (sweep _ _ _ _ _ _ _ _) as [st1|] eqn:Es; [|discriminate].
    intros [= <- <-].
    eapply sweep_effect in Es as (recs & H1 & _ & H3);
      [|exact Hruns|apply write_header_lookup].
    cbn [st_records app] in H1. subst recs. rewrite H3, E. reflexivity.
Qed.

End SweepFacts.

(** C6.  Sink preparation is idempotent, and on an existing non-empty file
    it changes nothing: after one invocation, and after a second one, the
    file system is what it was, the file's content included; no header line
    is added. *)
Theorem write_header_idempotent (path : string) (fs : gmap string string) :
  write_header_if_needed path (write_header_if_needed path fs)
  = write_header_if_needed path fs /\
  (forall content, fs !! path = Some content -> content <> EmptyString ->
     write_header_if_needed path fs = fs /\
     write_header_if_needed path (write_header_if_needed path fs) = fs /\
     write_header_if_needed path (write_header_if_needed path fs) !! path
     = Some content).
Proof.
  assert (Hidem : write_header_if_needed path (write_header_if_needed path fs)
                  = write_header_if_needed path fs).
  { unfold write_header_if_needed at 1. now rewrite write_header_lookup. }
  split; [exact Hidem|].
  intros content E _.
  assert (write_header_if_needed path fs = fs) as Hsame
    by (unfold write_header_if_needed; now rewrite E).
  rewrite Hidem, Hsame. auto.
Qed.

(** ** Configuration *)

Lemma strchr_decompose s :
  match strchr s ","%char with
  | None => True
  | Some q =>
      exists tok rest,
        s = (tok +:+ String ","%char rest)%string /\
        q = String ","%char rest /\ strchr tok ","%char = None
  end.
Proof.
  induction s as [|a s IH]; cbn [strchr]; [exact I|].
  destruct (Ascii.eqb_spec a ","%char) as [->|Hne].
  - exists EmptyString, s. auto.
  - destruct (strchr s ","%char) as [q|]; [|exact I].
    destruct IH as (tok & rest & -> & -> & Htok).
    exists (String a tok), rest. repeat split. cbn [strchr].
    destruct (Ascii.eqb_spec a ","%char); [contradiction|exact Htok].
Qed.

Lemma split_commas_comma_free tok :
  strchr tok ","%char = None -> split_commas tok = [tok].
Proof.
  induction tok as [|c tok IH]; cbn [strchr split_commas]; [reflexivity|].
  destruct (Ascii.eqb c ","%char); [discriminate|].
  intros H. now rewrite IH.
Qed.

Lemma split_commas_app tok rest :
  strchr tok ","%char = None ->
  split_commas (tok +:+ String ","%char rest) = tok :: split_commas rest.
Proof.
  induction tok as [|c tok IH]; [reflexivity|].
  rewrite string_app_cons. cbn [strchr split_commas].
  destruct (Ascii.eqb c ","%char); [discriminate|].
  intros H. now rewrite IH.
Qed.

Lemma split_commas_cons s : exists t ts, split_commas s = t :: ts.
Proof.
  induction s as [|c s (t & ts & IH)]; cbn [split_commas]; [eauto|].
  destruct (Ascii.eqb c ","%char); [eauto|]. rewrite IH. eauto.
Qed.

Lemma tokens_app tok rest :
  strchr tok ","%char = None ->
  tokens (tok +:+ String ","%char rest) = tok :: tokens rest.
Proof.
  intros H. unfold tokens. rewrite split_commas_app by exact H.
  destruct (split_commas_cons rest) as (t & ts & ->). reflexivity.
Qed.

Lemma tokens_comma_free c tok :
  strchr (String c tok) ","%char = None -> tokens (String c tok) = [String c tok].
Proof. intros H. unfold tokens. now rewrite split_commas_comma_free. Qed.

Lemma skip_spaces_app tok rest :
  skip_spaces (tok +:+ String ","%char rest)
  = (skip_spaces tok +:+ String ","%char rest)%string.
Proof.
  induction tok as [|c tok IH]; [reflexivity|].
  rewrite string_app_cons. cbn [skip_spaces].
  destruct (isspace c); [exact IH|reflexivity].
Qed.

Lemma digits_value_app r rest :
  forall acc,
    digits_value (r +:+ String ","%char rest) acc = digits_value r acc.
Proof.
  induction r as [|c r IH]; intros acc; [reflexivity|].
  rewrite string_app_cons. cbn [digits_value].
  destruct (isdigit c); [apply IH|reflexivity].
Qed.

(** [strtol] reads no further than the token its argument starts with. *)
Lemma strtol_token tok rest :
  strchr tok ","%char = None ->
  strtol (tok +:+ String ","%char rest) = strtol tok.
Proof.
  intros _. unfold strtol. rewrite skip_spaces_app.
  destruct (skip_spaces tok) as [|c r]; [reflexivity|].
  rewrite string_app_cons.
  destruct (Ascii.eqb c "-"%char); [now rewrite digits_value_app|].
  destruct (Ascii.eqb c "+"%char); [now rewrite digits_value_app|].
  now rewrite <- string_app_cons, digits_value_app.
Qed.

Lemma digits_value_no_digit s :
  match s with String d _ => isdigit d | EmptyString => false end = false ->
  digits_value s 0 = 0.
Proof. destruct s as [|d s]; cbn [digits_value]; [reflexivity|]. now intros ->. Qed.

Lemma strtol_no_number tok : starts_with_number tok = false -> strtol tok = 0.
Proof.
  unfold starts_with_number, strtol.
  destruct (skip_spaces tok) as [|c r]; [reflexivity|].
  destruct (Ascii.eqb c "-"%char); cbn [orb].
  - intros H. now rewrite digits_value_no_digit.
  - destruct (Ascii.eqb c "+"%char); cbn [orb].
    + intros H. now rewrite digits_value_no_digit.
    + intros H. now rewrite (digits_value_no_digit (String c r)).
Qed.

(** The parsing loop yields the values of the first 64 tokens, in order. *)
Lemma parse_sizes_tokens room :
  forall s,
    parse_sizes room s = map (fun t => wrap (strtol t)) (take room (tokens s)).
Proof.
  induction room as [|room IH]; intros s; [reflexivity|].
  destruct s as [|a s]; [reflexivity|]. cbn [parse_sizes].
  pose proof (strchr_decompose (String a s)) as Hd.
  destruct (strchr (String a s) ","%char) as [q|] eqn:E.
  - destruct Hd as (tok & rest & Hs & -> & Htok). rewrite Hs.
    rewrite strtol_token, tokens_app by exact Htok.
    cbn [next_char take map firstn]. now rewrite IH.
  - rewrite tokens_comma_free by exact E.
    cbn [firstn map]. now rewrite firstn_nil.
Qed.

(** C5 (as amended).  A non-empty size-list argument is parsed left to
    right as comma-separated tokens (nothing follows a final comma), of
    which the first 64 give the entries and the later ones are dropped; each
    entry is the number its token starts with, as [strtol] reads it, and 0
    when the token does not start with a number, without aborting.  When no
    size argument is supplied the list is {64,128,256,512,1024}. *)
Theorem size_list_parsing (argv : list string) :
  ((1 < length argv)%nat -> arg argv 1 <> EmptyString ->
   cfg_sizes (resolve_config argv)
   = map (fun t => wrap (strtol t)) (take 64 (tokens (arg argv 1))) /\
   (length (cfg_sizes (resolve_config argv)) <= 64)%nat) /\
  (forall tok, starts_with_number tok = false -> wrap (strtol tok) = 0) /\
  ((length argv <= 1)%nat -> cfg_sizes (resolve_config argv) = sizes_default).
Proof.
  split; [|split].
  - intros Hargc Hne. unfold resolve_config. cbn [cfg_sizes].
    destruct (Z.ltb_spec 1 (Z.of_nat (length argv))); [|lia].
    destruct (String.eqb_spec (arg argv 1) EmptyString); [contradiction|].
    cbn [andb negb].
    assert (parse_sizes 64 (arg argv 1) <> []) as Hnil.
    { destruct (arg argv 1); [contradiction|]. discriminate. }
    assert (length (parse_sizes 64 (arg argv 1)) <= 64)%nat as Hlen
      by (rewrite parse_sizes_tokens, length_map, length_take; lia).
    destruct (parse_sizes 64 (arg argv 1)) as [|x l] eqn:E; [contradiction|].
    cbn [length Nat.eqb]. rewrite <- E, parse_sizes_tokens.
    split; [reflexivity|exact Hlen].
  - intros tok H. now rewrite strtol_no_number.
  - intros Hargc. unfold resolve_config. cbn [cfg_sizes].
    destruct (Z.ltb_spec 1 (Z.of_nat (length argv))); [lia|]. reflexivity.
Qed.

(** C4 (as amended).  Each of the four positional parameters takes its
    documented default when the argument is omitted: size list
    {64,128,256,512,1024}, run count 3, output path "results_raw.csv",
    seed 27; the size list takes its default also when the argument is the
    empty string. *)
Theorem config_defaults (argv : list string) :
  ((length argv <= 1)%nat \/ arg argv 1 = EmptyString ->
   cfg_sizes (resolve_config argv) = [64; 128; 256; 512; 1024]) /\
  ((length argv <= 2)%nat -> cfg_runs (resolve_config argv) = 3) /\
  ((length argv <= 3)%nat ->
   cfg_out (resolve_config argv) = "results_raw.csv"%string) /\
  ((length argv <= 4)%nat -> cfg_seed (resolve_config argv) = 27).
Proof.
  unfold resolve_config. cbn [cfg_sizes cfg_runs cfg_out cfg_seed].
  repeat split.
  - intros [Hargc|Harg].
    + destruct (Z.ltb_spec 1 (Z.of_nat (length argv))); [lia|]. reflexivity.
    + rewrite Harg. cbn. now rewrite andb_false_r.
  - intros Hargc. destruct (Z.ltb_spec 2 (Z.of_nat (length argv))); [lia|]. reflexivity.
  - intros Hargc. destruct (Z.ltb_spec 3 (Z.of_nat (length argv))); [lia|]. reflexivity.
  - intros Hargc. destruct (Z.ltb_spec 4 (Z.of_nat (length argv))); [lia|]. reflexivity.
Qed.

(** ** The harness in the concrete environment *)

Lemma counted_draws (g : Z * nat) k :
  snd (@rng_after _ msvc_rng g k) = (snd g + k)%nat.
Proof.
  induction k as [|k IH]; [cbn; lia|].
  unfold rng_after in *. rewrite Nat.iter_succ.
  set (g' := Nat.iter k _ g) in *.
  cbn [rand msvc_rng]. destruct (msvc_rand (fst g')). cbn [snd]. rewrite IH. lia.
Qed.

(** The sweep of the specification's example: sizes "4,8", two runs, a file
    that does not exist yet. *)
Example sweep_4_8 :
  match sim_main 3 ["benchmark"; "4,8"; "2"; "out.csv"]%string ∅ 0 with
  | Some (status, st) =>
      status = 0 /\
      st_fs st !! "out.csv"%string = Some
"run_id;language;size;run_idx;time_ms;cpu_pct;peak_mib
30/10/11/34;C;4;1;2.500;37.5;8.00
30/10/11/34;C;4;2;2.500;37.5;8.00
30/10/11/34;C;8;1;2.500;37.5;8.00
30/10/11/34;C;8;2;2.500;37.5;8.00
"%string /\
      st_events st = [Malloc 4; Malloc 4; Malloc 4; Kernel 4; Kernel 4; Free; Free; Free;
                      Malloc 8; Malloc 8; Malloc 8; Kernel 8; Kernel 8; Free; Free; Free] /\
      snd (st_rng st) = 160%nat
  | None => False
  end.
Proof. vm_compute. repeat split. Qed.

(** C2, counterexample.  With [n = 2] and the runtime's generator seeded
    with 27, [A[1]] does not hold draw number 1: that draw went to [B[0]],
    and [A[1]] holds draw number 2; [B[0]] is not given draw number
    [n*n = 4]. *)
Lemma fill_not_A_then_B :
  0 <= 1 < 2 * 2 /\
  (@fill_matrices _ binary32 _ msvc_rng 2 (zeros, zeros, @srand _ msvc_rng 27)).1.1 1
  <> @cell_of_draw _ binary32 _ msvc_rng (@draw _ msvc_rng (@srand _ msvc_rng 27) 1) /\
  (@fill_matrices _ binary32 _ msvc_rng 2 (zeros, zeros, @srand _ msvc_rng 27)).1.2 0
  <> @cell_of_draw _ binary32 _ msvc_rng (@draw _ msvc_rng (@srand _ msvc_rng 27) 4).
Proof. split; [lia|]. split; vm_compute; discriminate. Qed.

(** C4, counterexample.  Given as empty strings, the run count and the seed
    are 0 and the output path is the empty path, not the defaults. *)
Lemma empty_arguments_not_default :
  arg ["benchmark"; ""; ""; ""; ""]%string 2 = EmptyString /\
  cfg_runs (resolve_config ["benchmark"; ""; ""; ""; ""]%string) <> 3 /\
  arg ["benchmark"; ""; ""; ""; ""]%string 3 = EmptyString /\
  cfg_out (resolve_config ["benchmark"; ""; ""; ""; ""]%string) <> "results_raw.csv"%string /\
  arg ["benchmark"; ""; ""; ""; ""]%string 4 = EmptyString /\
  cfg_seed (resolve_config ["benchmark"; ""; ""; ""; ""]%string) <> 27.
Proof. repeat split; vm_compute; discriminate. Qed.

(** C5, counterexample.  The token [4x] is not a valid number, yet it
    contributes the size 4, not 0; and the empty token after a final comma,
    not a valid number either, contributes no entry at all. *)
Lemma malformed_token_not_zero :
  tokens (arg ["benchmark"; "4x"]%string 1) = ["4x"%string] /\
  valid_number "4x" = false /\
  cfg_sizes (resolve_config ["benchmark"; "4x"]%string) = [4] /\
  cfg_sizes (resolve_config ["benchmark"; "4x"]%string) <> [0] /\
  split_commas "4,8," = ["4"; "8"; ""]%string /\
  valid_number "" = false /\
  cfg_sizes (resolve_config ["benchmark"; "4,8,"]%string) = [4; 8].
Proof. repeat split; vm_compute; discriminate. Qed.


(** ** The theorems at concrete inputs *)

Lemma kernel_boundary_witness :
  @matrix_multiplication _ binary32 A2 B2 ones 0 = ones /\
  5 <> 0 /\
  exists v,
    @matrix_multiplication _ binary32 A2 B2 ones 1 5 = ones 5 /\
    @matrix_multiplication _ binary32 A2 B2 ones 1 0 = v /\
    float_eq v (@fmul _ binary32 (A2 0) (B2 0)).
Proof.
  assert (H5 : 5 <> 0) by lia.
  destruct (kernel_boundary A2 B2 ones) as (H0 & _ & v & _ & _ & Hp & Hv & Heq).
  refine (conj H0 (conj H5 (ex_intro _ v (conj (Hp 5 H5) (conj Hv Heq))))).
Defined.

Lemma fill_matrices_draw_order_witness :
  2 * 2 <= INT_MAX /\ 0 <= 1 < 2 * 2 /\
  (@fill_matrices _ binary32 _ msvc_rng 2 (zeros, zeros, @srand _ msvc_rng 27)).2
  = @rng_after _ msvc_rng (@srand _ msvc_rng 27) (Z.to_nat (2 * (2 * 2))) /\
  (@fill_matrices _ binary32 _ msvc_rng 2 (zeros, zeros, @srand _ msvc_rng 27)).1.1 1
  = @cell_of_draw _ binary32 _ msvc_rng
      (@draw _ msvc_rng (@srand _ msvc_rng 27) (Z.to_nat (2 * 1))).
Proof.
  assert (H : 2 * 2 <= INT_MAX) by (unfold INT_MAX; lia).
  assert (H1 : 0 <= 1 < 2 * 2) by lia.
  destruct (@fill_matrices_draw_order _ binary32 _ msvc_rng 2 zeros zeros
              (@srand _ msvc_rng 27) H) as (Hg & Hin & _).
  refine (conj H (conj H1 (conj Hg (proj1 (Hin 1 H1))))).
Defined.

Example sweep_keys_4_8 :
  sweep_keys [4; 8] 2 = [(4, 1); (4, 2); (8, 1); (8, 2)].
Proof. reflexivity. Qed.

Lemma config_defaults_witness :
  ((length ["benchmark"%string] <= 1)%nat \/ arg ["benchmark"%string] 1 = EmptyString) /\
  (length ["benchmark"%string] <= 4)%nat /\
  resolve_config ["benchmark"%string]
  = mkConfig [64; 128; 256; 512; 1024] 3 "results_raw.csv" 27.
Proof.
  assert (H1 : (length ["benchmark"%string] <= 1)%nat) by (cbn; lia).
  assert (H2 : (length ["benchmark"%string] <= 2)%nat) by (cbn; lia).
  assert (H3 : (length ["benchmark"%string] <= 3)%nat) by (cbn; lia).
  assert (H4 : (length ["benchmark"%string] <= 4)%nat) by (cbn; lia).
  destruct (config_defaults ["benchmark"%string]) as (Hsizes & Hruns & Hout & Hseed).
  refine (conj (or_introl H1) (conj H4 _)).
  specialize (Hsizes (or_introl H1)). specialize (Hruns H2).
  specialize (Hout H3). specialize (Hseed H4).
  destruct (resolve_config ["benchmark"%string]) as [sizes runs out seed].
  cbn [cfg_sizes cfg_runs cfg_out cfg_seed] in *.
  now rewrite Hsizes, Hruns, Hout, Hseed.
Defined.

Lemma size_list_parsing_witness :
  (1 < length ["benchmark"; "4,abc,8"]%string)%nat /\
  arg ["benchmark"; "4,abc,8"]%string 1 <> EmptyString /\
  starts_with_number "abc" = false /\
  cfg_sizes (resolve_config ["benchmark"; "4,abc,8"]%string)
  = map (fun t => wrap (strtol t)) ["4"; "abc"; "8"]%string /\
  wrap (strtol "abc") = 0.
Proof.
  assert (H1 : (1 < length ["benchmark"; "4,abc,8"]%string)%nat) by (cbn; lia).
  assert (H2 : arg ["benchmark"; "4,abc,8"]%string 1 <> EmptyString) by discriminate.
  assert (H3 : starts_with_number "abc" = false) by reflexivity.
  destruct (size_list_parsing ["benchmark"; "4,abc,8"]%string) as (Hparse & Hzero & _).
  refine (conj H1 (conj H2 (conj H3 (conj (proj1 (Hparse H1 H2)) (Hzero _ H3))))).
Defined.

Lemma write_header_idempotent_witness :
  ({[ "out.csv"%string := HEADER ]} : gmap string string) !! "out.csv"%string = Some HEADER /\
  HEADER <> EmptyString /\
  write_header_if_needed "out.csv"
    (write_header_if_needed "out.csv" {[ "out.csv"%string := HEADER ]})
  = {[ "out.csv"%string := HEADER ]}.
Proof.
  assert (H1 : ({[ "out.csv"%string := HEADER ]} : gmap string string)
               !! "out.csv"%string = Some HEADER) by reflexivity.
  assert (H2 : HEADER <> EmptyString) by discriminate.
  refine (conj H1 (conj H2 _)).
  exact (proj1 (proj2 (proj2 (write_header_idempotent "out.csv"
                                {[ "out.csv"%string := HEADER ]}) HEADER H1 H2))).
Defined.

Lemma header_only_when_absent_witness :
  (∅ : gmap string string) !! "out.csv"%string = None /\
  write_header_if_needed "out.csv" ∅ !! "out.csv"%string = Some HEADER /\
  is_Some (({[ "out.csv"%string := EmptyString ]} : gmap string string) !! "out.csv"%string) /\
  write_header_if_needed "out.csv" {[ "out.csv"%string := EmptyString ]}
  = {[ "out.csv"%string := EmptyString ]}.
Proof.
  assert (H1 : (∅ : gmap string string) !! "out.csv"%string = None) by reflexivity.
  assert (H2 : is_Some (({[ "out.csv"%string := EmptyString ]} : gmap string string)
                          !! "out.csv"%string)) by (exists EmptyString; reflexivity).
  refine (conj H1 (conj _ (conj H2 _))).
  - exact (proj1 (@header_only_when_absent spec_float binary32 spec_float binary64
                    sim_stdio (Z * nat) msvc_rng Z sim_platform "out.csv" ∅) H1).
  - exact (proj1 (proj2 (@header_only_when_absent spec_float binary32 spec_float
                           binary64 sim_stdio (Z * nat) msvc_rng Z sim_platform
                           "out.csv" {[ "out.csv"%string := EmptyString ]})) H2).
Defined.

(** * Part III: further properties of the code *)

(** ** The kernel run again, and what a cell depends on *)

Section KernelMore.

Context {F : Type} {FO : FloatOps F}.

(** X1.  Running the kernel again on its own output changes nothing: for
    [n >= 0] with [n*n <= INT_MAX] and every cell, [C] after a second call
    with the same [A], [B], [n] holds what it held after the first (the
    kernel never reads [C]).  This is what the harness's repeated runs on
    one [C] rely on. *)
Theorem matrix_multiplication_rerun (A B C : buffer F) (n p : Z) :
  0 <= n -> n * n <= INT_MAX ->
  matrix_multiplication A B (matrix_multiplication A B C n) n p
  = matrix_multiplication A B C n p.
Proof.
  intros Hn Hnn.
  rewrite (matrix_multiplication_writes A B (matrix_multiplication A B C n)).
  rewrite apply_writes_last.
  destruct (Z_le_dec 0 p) as [H0|H0]; [destruct (Z_lt_dec p (n * n)) as [H1|H1]|].
  - assert (p = (p / n) * n + p mod n) as Ep
      by (pose proof (Z.div_mod p n ltac:(nia)); lia).
    assert (0 <= p mod n < n) by (apply Z.mod_pos_bound; nia).
    assert (0 <= p / n < n).
    { split; [apply Z.div_pos; nia|]. apply Z.div_lt_upper_bound; nia. }
    rewrite matrix_multiplication_writes, apply_writes_last.
    rewrite Ep, last_write_kernel by lia. reflexivity.
  - now rewrite last_write_kernel_outside by lia.
  - now rewrite last_write_kernel_outside by lia.
Qed.

(** X2.  For [n >= 0] with [n*n <= INT_MAX], cell [(i,j)] of the result
    depends on row [i] of [A] and column [j] of [B] only: two calls whose
    [A]s agree on row [i] and whose [B]s agree on column [j] store the same
    value in [C[i*n+j]], whatever the other cells of [A] and [B] and the
    previous content of [C]. *)
Theorem matrix_multiplication_locality (A A' B B' C C' : buffer F) (n i j : Z) :
  0 <= n -> n * n <= INT_MAX -> 0 <= i < n -> 0 <= j < n ->
  (forall k, 0 <= k < n -> A (i * n + k) = A' (i * n + k)) ->
  (forall k, 0 <= k < n -> B (k * n + j) = B' (k * n + j)) ->
  matrix_multiplication A B C n (i * n + j)
  = matrix_multiplication A' B' C' n (i * n + j).
Proof.
  intros Hn Hnn Hi Hj HA HB.
  rewrite !matrix_multiplication_writes, !apply_writes_last.
  rewrite !last_write_kernel by assumption.
  unfold dot_product. apply fold_left_ext_in. intros acc k Hk.
  apply in_seqZ in Hk. rewrite HA, HB by lia. reflexivity.
Qed.

End KernelMore.

Lemma matrix_multiplication_rerun_witness :
  0 <= 2 /\ 2 * 2 <= INT_MAX /\
  @matrix_multiplication _ binary32 A2 B2
    (@matrix_multiplication _ binary32 A2 B2 ones 2) 2 3
  = @matrix_multiplication _ binary32 A2 B2 ones 2 3.
Proof.
  assert (H0 : 0 <= 2) by lia.
  assert (H1 : 2 * 2 <= INT_MAX) by (unfold INT_MAX; lia).
  exact (conj H0 (conj H1
    (@matrix_multiplication_rerun _ binary32 A2 B2 ones 2 3 H0 H1))).
Defined.

Lemma matrix_multiplication_locality_witness :
  0 <= 2 /\ 2 * 2 <= INT_MAX /\ 0 <= 1 < 2 /\ 0 <= 0 < 2 /\
  (forall k, 0 <= k < 2 -> A2 (1 * 2 + k) = buffer_of_ints [9; 9; 3; 4] (1 * 2 + k)) /\
  (forall k, 0 <= k < 2 -> B2 (k * 2 + 0) = buffer_of_ints [5; 0; 7; 0] (k * 2 + 0)) /\
  @matrix_multiplication _ binary32 A2 B2 zeros 2 (1 * 2 + 0)
  = @matrix_multiplication _ binary32 (buffer_of_ints [9; 9; 3; 4])
      (buffer_of_ints [5; 0; 7; 0]) ones 2 (1 * 2 + 0).
Proof.
  assert (H0 : 0 <= 2) by lia.
  assert (H1 : 2 * 2 <= INT_MAX) by (unfold INT_MAX; lia).
  assert (H2 : 0 <= 1 < 2) by lia.
  assert (H3 : 0 <= 0 < 2) by lia.
  assert (HA : forall k, 0 <= k < 2 ->
                 A2 (1 * 2 + k) = buffer_of_ints [9; 9; 3; 4] (1 * 2 + k)).
  { intros k Hk. assert (k = 0 \/ k = 1) as [->| ->] by lia; reflexivity. }
  assert (HB : forall k, 0 <= k < 2 ->
                 B2 (k * 2 + 0) = buffer_of_ints [5; 0; 7; 0] (k * 2 + 0)).
  { intros k Hk. assert (k = 0 \/ k = 1) as [->| ->] by lia; reflexivity. }
  refine (conj H0 (conj H1 (conj H2 (conj H3 (conj HA (conj HB _)))))).
  exact (@matrix_multiplication_locality _ binary32 A2 (buffer_of_ints [9; 9; 3; 4])
           B2 (buffer_of_ints [5; 0; 7; 0]) zeros ones 2 1 0 H0 H1 H2 H3 HA HB).
Defined.

(** ** Numbers printed and parsed *)

Lemma isdigit_not_space c : isdigit c = true -> isspace c = false.
Proof.
  unfold isdigit, isspace. cbv zeta.
  destruct (N.leb_spec 48 (N_of_ascii c)); [|discriminate].
  destruct (N.leb_spec (N_of_ascii c) 57); [|discriminate]. intros _.
  destruct (N.leb_spec 9 (N_of_ascii c)); [|lia].
  destruct (N.leb_spec (N_of_ascii c) 13); [lia|].
  destruct (N.eqb_spec (N_of_ascii c) 32); [lia|reflexivity].
Qed.

Lemma isdigit_not_char c a : isdigit a = false -> isdigit c = true -> Ascii.eqb c a = false.
Proof.
  intros Ha Hc. destruct (Ascii.eqb_spec c a) as [->|]; [congruence|reflexivity].
Qed.

Lemma pretty_N_char_digit d :
  (d < 10)%N ->
  isdigit (pretty_N_char d) = true /\ digit_value (pretty_N_char d) = Z.of_N d.
Proof.
  intros Hd.
  assert (d = 0 \/ d = 1 \/ d = 2 \/ d = 3 \/ d = 4 \/ d = 5 \/ d = 6 \/ d = 7
          \/ d = 8 \/ d = 9)%N as Hcases by lia.
  repeat (destruct Hcases as [->|Hcases]); try subst d; split; reflexivity.
Qed.

(** Reading the digits [pretty_N_go x s] starts with appends the decimal
    value [x] to the number read so far. *)
Lemma digits_value_pretty_N_go x :
  exists p, forall s acc,
    digits_value (pretty_N_go x s) acc = digits_value s (acc * p + Z.of_N x).
Proof.
  induction (N.lt_wf_0 x) as [x _ IH].
  destruct (N.eq_dec x 0%N) as [->|Hx].
  - exists 1. intros s acc. rewrite pretty_N_go_0. f_equal. lia.
  - destruct (IH (x `div` 10)%N) as [p Hp]; [apply N.div_lt; lia|].
    exists (p * 10). intros s acc.
    rewrite pretty_N_go_step by lia. rewrite Hp. cbn [digits_value].
    destruct (pretty_N_char_digit (x `mod` 10)%N) as [-> ->];
      [apply N.mod_lt; lia|].
    f_equal. rewrite (N.div_mod x 10) at 3 by lia.
    rewrite N2Z.inj_add, N2Z.inj_mul. change (Z.of_N 10) with 10. lia.
Qed.

Lemma all_digits_pretty_N_go x :
  forall s, all_digits (pretty_N_go x s) = all_digits s.
Proof.
  induction (N.lt_wf_0 x) as [x _ IH]. intros s.
  destruct (N.eq_dec x 0%N) as [->|Hx]; [now rewrite pretty_N_go_0|].
  rewrite pretty_N_go_step by lia. rewrite IH by (apply N.div_lt; lia).
  cbn [all_digits].
  destruct (pretty_N_char_digit (x `mod` 10)%N) as [-> _];
    [apply N.mod_lt; lia|reflexivity].
Qed.

Lemma pretty_N_go_nonempty x :
  forall s, s <> EmptyString -> pretty_N_go x s <> EmptyString.
Proof.
  induction (N.lt_wf_0 x) as [x _ IH]. intros s Hs.
  destruct (N.eq_dec x 0%N) as [->|Hx]; [now rewrite pretty_N_go_0|].
  rewrite pretty_N_go_step by lia. apply IH; [apply N.div_lt; lia|discriminate].
Qed.

(** A non-negative integer is printed as its decimal digits. *)
Lemma pretty_nonneg (z : Z) :
  0 <= z -> all_digits (pretty z) = true /\ digits_value (pretty z) 0 = z /\
            pretty z <> EmptyString.
Proof.
  intros Hz. destruct z as [|x|x]; [repeat split; discriminate| |lia].
  change (pretty (Z.pos x)) with (pretty (N.pos x)).
  unfold pretty, pretty_N. destruct (decide (N.pos x = 0%N)); [discriminate|].
  split; [|split].
  - now rewrite all_digits_pretty_N_go.
  - destruct (digits_value_pretty_N_go (N.pos x)) as [p Hp]. rewrite Hp.
    reflexivity.
  - rewrite pretty_N_go_step by lia. apply pretty_N_go_nonempty. discriminate.
Qed.

Lemma skip_spaces_digits s : all_digits s = true -> skip_spaces s = s.
Proof.
  destruct s as [|c r]; [reflexivity|]. cbn [all_digits skip_spaces].
  intros [Hc _]%andb_true_iff. now rewrite isdigit_not_space.
Qed.

Lemma strtol_digits s :
  all_digits s = true -> strtol s = Z.min LONG_MAX (digits_value s 0).
Proof.
  intros Hs. unfold strtol. rewrite skip_spaces_digits by exact Hs.
  destruct s as [|c r]; [reflexivity|].
  cbn [all_digits] in Hs. apply andb_true_iff in Hs as [Hc _].
  rewrite (isdigit_not_char c "-"%char), (isdigit_not_char c "+"%char);
    auto.
Qed.

Lemma strtol_minus_digits s :
  strtol (String "-"%char s) = Z.max LONG_MIN (- digits_value s 0).
Proof. reflexivity. Qed.

Lemma strchr_digits s : all_digits s = true -> strchr s ","%char = None.
Proof.
  induction s as [|c r IH]; [reflexivity|]. cbn [all_digits strchr].
  intros [Hc Hr]%andb_true_iff.
  rewrite (isdigit_not_char c ","%char) by auto. auto.
Qed.

Lemma pretty_negative x :
  pretty (Z.neg x) = String "-"%char (pretty (Z.pos x)).
Proof. reflexivity. Qed.

(** What [%d] prints reads back through [strtol]. *)
Lemma strtol_pretty (z : Z) : LONG_MIN <= z <= LONG_MAX -> strtol (pretty z) = z.
Proof.
  intros Hz. destruct (Z.le_gt_cases 0 z) as [Hpos|Hneg].
  - destruct (pretty_nonneg z Hpos) as (Hd & Hv & _).
    rewrite strtol_digits, Hv by exact Hd. lia.
  - destruct z as [|x|x]; try lia.
    rewrite pretty_negative, strtol_minus_digits.
    destruct (pretty_nonneg (Z.pos x)) as (_ & -> & _); lia.
Qed.

Lemma strchr_pretty (z : Z) : strchr (pretty z) ","%char = None.
Proof.
  destruct (Z.le_gt_cases 0 z) as [Hpos|Hneg].
  - apply strchr_digits, pretty_nonneg, Hpos.
  - destruct z as [|x|x]; try lia. rewrite pretty_negative.
    cbn [strchr]. change (Ascii.eqb "-" ",") with false.
    apply strchr_digits, pretty_nonneg. lia.
Qed.

Lemma pretty_nonempty (z : Z) : pretty z <> EmptyString.
Proof.
  destruct (Z.le_gt_cases 0 z) as [Hpos|Hneg].
  - apply pretty_nonneg, Hpos.
  - destruct z as [|x|x]; try lia. rewrite pretty_negative. discriminate.
Qed.

(** X3.  What [%d] prints of an [int] reads back as that [int]: for every
    [z] in the range of [int], [atoi] (hence the size parser's [strtol])
    applied to the decimal text of [z] gives [z], so the size and run
    index fields of a record line carry their values without loss. *)
Theorem atoi_fmt_d (z : Z) :
  in_range z -> atoi (fmt_d z) = z /\ wrap (strtol (fmt_d z)) = z.
Proof.
  intros Hz. unfold atoi, fmt_d.
  rewrite strtol_pretty by (unfold in_range, INT_MIN, INT_MAX, LONG_MIN, LONG_MAX in *; lia).
  rewrite wrap_small by exact Hz. auto.
Qed.

Lemma atoi_fmt_d_witness :
  in_range (-2147483648) /\ atoi (fmt_d (-2147483648)) = -2147483648.
Proof.
  assert (H : in_range (-2147483648)) by (unfold in_range, INT_MIN, INT_MAX; lia).
  exact (conj H (proj1 (atoi_fmt_d (-2147483648) H))).
Defined.

(** ** The size list *)

Lemma parse_sizes_in_range room :
  forall p, Forall in_range (parse_sizes room p).
Proof.
  induction room as [|room IH]; intros p; [constructor|].
  destruct p as [|a p]; [constructor|]. cbn [parse_sizes].
  constructor; [apply wrap_in_range|].
  destruct (strchr _ _); [apply IH|constructor].
Qed.

Lemma parse_sizes_length room :
  forall p, (length (parse_sizes room p) <= room)%nat.
Proof.
  induction room as [|room IH]; intros p; [cbn; lia|].
  destruct p as [|a p]; [cbn; lia|]. cbn [parse_sizes length].
  destruct (strchr _ _); [specialize (IH (next_char s)); lia|cbn; lia].
Qed.

(** X4.  Whatever the arguments, the resolved configuration has between 1
    and 64 sizes, every size is an [int], and so are the run count and the
    seed: the sweep never runs on an empty size list and the parser never
    stores beyond [sizes[63]]. *)
Theorem config_ranges (argv : list string) :
  (1 <= length (cfg_sizes (resolve_config argv)) <= 64)%nat /\
  Forall in_range (cfg_sizes (resolve_config argv)) /\
  in_range (cfg_runs (resolve_config argv)) /\
  in_range (cfg_seed (resolve_config argv)).
Proof.
  unfold resolve_config. cbn [cfg_sizes cfg_runs cfg_seed].
  match goal with
  | |- context [if ?b then parse_sizes 64 ?a else []] =>
      set (parsed := if b then parse_sizes 64 a else [])
  end.
  assert (Forall in_range parsed /\ (length parsed <= 64)%nat) as [Hr Hl].
  { subst parsed. destruct (_ && _).
    - split; [apply parse_sizes_in_range|apply parse_sizes_length].
    - split; [constructor|cbn; lia]. }
  assert (Forall in_range sizes_default) as Hd
    by (repeat constructor; unfold INT_MIN, INT_MAX; lia).
  assert (in_range 3 /\ in_range 27) as [H3 H27]
    by (unfold in_range, INT_MIN, INT_MAX; lia).
  split; [|split; [|split]].
  - destruct parsed; cbn in *; lia.
  - destruct parsed; [exact Hd|exact Hr].
  - destruct (Z.ltb 2 _); [apply wrap_in_range|exact H3].
  - destruct (Z.ltb 4 _); [apply wrap_in_range|exact H27].
Qed.

Lemma parse_sizes_cons_comma room tok rest :
  strchr tok ","%char = None ->
  parse_sizes (S room) (tok +:+ String ","%char rest)
  = wrap (strtol tok) :: parse_sizes room rest.
Proof.
  intros Htok. rewrite (parse_sizes_tokens (S room)), tokens_app by exact Htok.
  cbn [firstn map]. now rewrite <- parse_sizes_tokens.
Qed.

Lemma parse_sizes_single room tok :
  tok <> EmptyString -> strchr tok ","%char = None ->
  parse_sizes (S room) tok = [wrap (strtol tok)].
Proof.
  intros Hne Htok. destruct tok as [|c tok]; [contradiction|].
  rewrite parse_sizes_tokens, tokens_comma_free by exact Htok.
  cbn [firstn map]. now rewrite firstn_nil.
Qed.

Lemma parse_sizes_argument l :
  Forall in_range l ->
  forall room, parse_sizes room (sizes_argument l) = take room l.
Proof.
  unfold sizes_argument.
  induction 1 as [|z l Hz Hl IH]; intros room.
  - destruct room; reflexivity.
  - destruct room as [|room]; [reflexivity|].
    assert (wrap (strtol (fmt_d z)) = z) as Ez.
    { unfold fmt_d. rewrite strtol_pretty
        by (unfold in_range, INT_MIN, INT_MAX, LONG_MIN, LONG_MAX in *; lia).
      apply wrap_small, Hz. }
    destruct l as [|z' l].
    + cbn [map join_commas]. rewrite parse_sizes_single;
        [|apply pretty_nonempty|apply strchr_pretty].
      rewrite Ez. cbn [firstn]. now rewrite firstn_nil.
    + change (join_commas (map fmt_d (z :: z' :: l)))
        with (fmt_d z +:+ String ","%char (join_commas (map fmt_d (z' :: l))))%string.
      rewrite parse_sizes_cons_comma by apply strchr_pretty.
      rewrite Ez, IH. reflexivity.
Qed.

(** X5.  A non-empty list of [int] sizes written as decimal numbers with
    commas between them is parsed back to itself, cut to its first 64
    entries: negative sizes and 0 are taken as they are. *)
Theorem sizes_round_trip (prog : string) (l : list Z) (rest : list string) :
  l <> [] -> Forall in_range l ->
  cfg_sizes (resolve_config (prog :: sizes_argument l :: rest)) = take 64 l.
Proof.
  intros Hne Hl. unfold resolve_config. cbn [cfg_sizes arg nth length].
  rewrite parse_sizes_argument by exact Hl.
  destruct (Z.ltb_spec 1 (Z.of_nat (S (S (length rest))))); [|lia].
  assert (sizes_argument l <> EmptyString) as Harg.
  { unfold sizes_argument. destruct l as [|z [|z' l]]; [contradiction| |].
    - apply pretty_nonempty.
    - cbn [map join_commas]. pose proof (pretty_nonempty z) as Hz.
      unfold fmt_d. destruct (pretty z); [contradiction|discriminate]. }
  destruct (String.eqb_spec (sizes_argument l) EmptyString); [contradiction|].
  destruct l; [contradiction|reflexivity].
Qed.

Lemma sizes_round_trip_witness :
  [512; 0; -3] <> [] /\ Forall in_range [512; 0; -3] /\
  cfg_sizes (resolve_config ["benchmark"%string; sizes_argument [512; 0; -3]])
  = take 64 [512; 0; -3].
Proof.
  assert (H1 : [512; 0; -3] <> []) by discriminate.
  assert (H2 : Forall in_range [512; 0; -3])
    by (repeat constructor; unfold INT_MIN, INT_MAX; lia).
  exact (conj H1 (conj H2 (sizes_round_trip "benchmark" [512; 0; -3] [] H1 H2))).
Defined.

(** ** The sweep: what every completed run leaves behind *)

Lemma for_le_invariant {S : Type} (Q : S -> Prop) (body : Z -> S -> S) :
  (forall k s, Q s -> Q (body k s)) ->
  forall fuel r hi s s', Q s -> for_le fuel r hi body s = Some s' -> Q s'.
Proof.
  intros Hbody. induction fuel as [|fuel IH]; intros r hi s s' Hs; [discriminate|].
  cbn [for_le]. destruct (Z.leb r hi).
  - apply IH, Hbody, Hs.
  - now intros [= <-].
Qed.

Section SweepMore.

Context {F : Type} {FO : FloatOps F}.
Context {D : Type} {DO : FloatOps D} {SIO : Stdio D}.
Context {G : Type} {RG : Rng G}.
Context {W : Type} {PF : Platform W F}.

Ltac split_pairs :=
  repeat match goal with
         | |- context [match ?e with pair _ _ => _ end] => destruct e
         end.

Lemma measured_run_full out run_id language ncpu n (A B : buffer F) r C
    (st : @State D G W) :
  exists rec : @BenchRecord D,
    rec_run_id rec = run_id /\ rec_language rec = language /\
    rec_size rec = n /\ rec_run_idx rec = r /\
    let st' := (measured_run out run_id language ncpu n A B r (C, st)).2 in
    st_records st' = st_records st ++ [rec] /\
    st_fs st' = append_file out (format_record rec) (st_fs st) /\
    st_console st' = st_console st ++ [format_console rec] /\
    st_rng st' = st_rng st /\
    st_events st' = st_events st ++ [Kernel n].
Proof.
  unfold measured_run.
  split_pairs; eexists; cbn; repeat split; reflexivity.
Qed.

(** A property of the state that every measured run keeps, and that does
    not look at the generator or the event log, holds after the sweep. *)
Lemma sweep_invariant (Q : @State D G W -> Prop) fuel runs out run_id language ncpu :
  (forall n (A B : buffer F) r C st,
     Q st -> Q (measured_run out run_id language ncpu n A B r (C, st)).2) ->
  (forall st g ev,
     Q st -> Q (mkState (st_fs st) g (st_world st) (st_console st) ev (st_records st))) ->
  forall sizes st st',
    Q st -> sweep fuel runs out run_id language ncpu sizes st = Some st' -> Q st'.
Proof.
  intros Hrun Hframe. induction sizes as [|n sizes IH]; intros st st' Hst; cbn [sweep].
  - now intros [= <-].
  - destruct (size_iteration _ _ _ _ _ _ _ _) as [st1|] eqn:E; [|discriminate].
    apply IH. revert E. unfold size_iteration.
    destruct (fill_matrices n _) as [[A B] g].
    destruct (for_le _ _ _ _ _) as [[C1 st2]|] eqn:El; [|discriminate].
    intros [= <-]. apply Hframe.
    apply (for_le_invariant (fun s => Q s.2)) in El; [exact El| |].
    + intros k [C st0] HQ. apply Hrun, HQ.
    + cbn [snd]. apply (Hframe st), Hst.
Qed.

Lemma run_benchmark_complete fuel (cfg : Config) (fs : gmap string string) (w : W) :
  cfg_runs cfg < INT_MAX -> (Z.to_nat (cfg_runs cfg) < fuel)%nat ->
  is_Some (run_benchmark (F:=F) (D:=D) (G:=G) fuel cfg fs w).
Proof.
  intros Hlt Hfuel. unfold run_benchmark.
  match goal with
  | |- context [sweep ?a ?b ?c ?d ?e ?f ?g ?h] =>
      destruct (sweep_complete a b c d e f g Hlt Hfuel h) as [st ->]
  end.
  eauto.
Qed.

(** X6.  Every record of a sweep is also printed: on completion the console
    holds one line per appended record, in the same order, each the
    console rendering of its record. *)
Theorem console_mirrors_records fuel (cfg : Config) (fs : gmap string string) (w : W)
    status (st : @State D G W) :
  run_benchmark (F:=F) fuel cfg fs w = Some (status, st) ->
  st_console st = map format_console (st_records st).
Proof.
  unfold run_benchmark.
  destruct (sweep _ _ _ _ _ _ _ _) as [st1|] eqn:E; [|discriminate].
  intros [= <- <-]. revert E.
  apply (sweep_invariant (fun st => st_console st = map format_console (st_records st))).
  - intros n A B r C st0 HQ.
    destruct (measured_run_full (cfg_out cfg) (run_id_str w) "C" (logical_cpus w)
                n A B r C st0) as (rec & _ & _ & _ & _ & Hrec & _ & Hcon & _).
    cbn zeta in *. rewrite Hcon, Hrec, HQ, map_app. reflexivity.
  - intros st0 g ev HQ. exact HQ.
  - reflexivity.
Qed.

(** X7.  The sweep touches no file but the output file: every other path
    of the file system holds on completion what it held at the start. *)
Theorem other_files_untouched fuel (cfg : Config) (fs : gmap string string) (w : W)
    status (st : @State D G W) (path : string) :
  path <> cfg_out cfg ->
  run_benchmark (F:=F) fuel cfg fs w = Some (status, st) ->
  st_fs st !! path = fs !! path.
Proof.
  intros Hne. unfold run_benchmark.
  destruct (sweep _ _ _ _ _ _ _ _) as [st1|] eqn:E; [|discriminate].
  intros [= <- <-]. revert E.
  apply (sweep_invariant (fun st => st_fs st !! path = fs !! path)).
  - intros n A B r C st0 HQ.
    destruct (measured_run_full (cfg_out cfg) (run_id_str w) "C" (logical_cpus w)
                n A B r C st0) as (rec & _ & _ & _ & _ & _ & Hfs & _).
    cbn zeta in *. rewrite Hfs. unfold append_file.
    rewrite lookup_insert_ne by congruence. exact HQ.
  - intros st0 g ev HQ. exact HQ.
  - cbn [st_fs]. unfold write_header_if_needed.
    destruct (fs !! cfg_out cfg); [reflexivity|].
    unfold append_file. now rewrite lookup_insert_ne by congruence.
Qed.

(** X8.  All records of one sweep carry the same run identifier, the one
    formed from the local time read once at start-up, and the language
    tag [C]. *)
Theorem records_share_run_id fuel (cfg : Config) (fs : gmap string string) (w : W)
    status (st : @State D G W) :
  run_benchmark (F:=F) fuel cfg fs w = Some (status, st) ->
  Forall (fun r => rec_run_id r = run_id_str w /\ rec_language r = "C"%string)
         (st_records st).
Proof.
  unfold run_benchmark.
  destruct (sweep _ _ _ _ _ _ _ _) as [st1|] eqn:E; [|discriminate].
  intros [= <- <-]. revert E.
  apply (sweep_invariant
           (fun st => Forall (fun r => rec_run_id r = run_id_str w /\
                                       rec_language r = "C"%string) (st_records st))).
  - intros n A B r C st0 HQ.
    destruct (measured_run_full (cfg_out cfg) (run_id_str w) "C" (logical_cpus w)
                n A B r C st0) as (rec & Hid & Hlang & _ & _ & Hrec & _).
    cbn zeta in *. rewrite Hrec. apply Forall_app. split; [exact HQ|].
    constructor; [auto|constructor].
  - intros st0 g ev HQ. exact HQ.
  - constructor.
Qed.

End SweepMore.

Section SweepTrace.

Context {F : Type} {FO : FloatOps F}.
Context {D : Type} {DO : FloatOps D} {SIO : Stdio D}.
Context {G : Type} {RG : Rng G}.
Context {W : Type} {PF : Platform W F}.

Lemma runs_fold_trace out run_id language ncpu n (A B : buffer F) rs :
  forall C (st : @State D G W),
    let st' := (fold_left (fun s r => measured_run out run_id language ncpu n A B r s)
                          rs (C, st)).2 in
    st_rng st' = st_rng st /\
    st_events st' = st_events st ++ repeat (Kernel n) (length rs).
Proof.
  induction rs as [|r rs IH]; intros C st; cbn zeta.
  - cbn. now rewrite app_nil_r.
  - cbn [fold_left].
    destruct (measured_run_full out run_id language ncpu n A B r C st)
      as (rec & _ & _ & _ & _ & _ & _ & _ & Hrng & Hev).
    destruct (measured_run out run_id language ncpu n A B r (C, st)) as [C1 st1].
    cbn [snd] in *. destruct (IH C1 st1) as [H1 H2].
    rewrite H1, H2, Hrng, Hev. cbn [length repeat].
    now rewrite <- app_assoc.
Qed.

Lemma size_iteration_trace fuel runs out run_id language ncpu n
    (st st' : @State D G W) :
  runs <= INT_MAX ->
  size_iteration fuel runs out run_id language ncpu n st = Some st' ->
  st_rng st'
  = (fill_matrices n (malloc_content (st_world st),
                      malloc_content (st_world st), st_rng st)).2 /\
  st_events st' = st_events st ++ size_events runs n.
Proof.
  intros Hruns. unfold size_iteration.
  destruct (fill_matrices n _) as [[A B] g].
  destruct (for_le _ _ _ _ _) as [[C1 st1]|] eqn:E; [|discriminate].
  intros [= <-]. cbn [st_rng st_events snd].
  apply for_le_from_one in E as [_ E]; [|exact Hruns].
  match type of E with
  | _ = fold_left _ _ (?C0, ?st0) =>
      destruct (runs_fold_trace out run_id language ncpu n A B (seqZ 1 runs) C0 st0)
        as [H1 H2]
  end.
  cbn zeta in *. rewrite <- E in *. cbn [snd st_rng st_events] in *.
  rewrite H1, H2, length_seqZ. unfold size_events.
  now rewrite <- !app_assoc.
Qed.

Lemma sweep_trace fuel runs out run_id language ncpu sizes :
  runs <= INT_MAX ->
  forall st st' : @State D G W,
    sweep fuel runs out run_id language ncpu sizes st = Some st' ->
    st_events st' = st_events st ++ sweep_events sizes runs /\
    (Forall (fun n => n * n <= INT_MAX) sizes ->
     st_rng st' = rng_after (st_rng st) (fill_draws sizes)).
Proof.
  intros Hruns. induction sizes as [|n sizes IH]; intros st st'; cbn [sweep].
  - intros [= <-]. cbn. now rewrite app_nil_r.
  - destruct (size_iteration _ _ _ _ _ _ _ _) as [st1|] eqn:E; [|discriminate].
    intros Hs. apply size_iteration_trace in E as [Hg Hev]; [|exact Hruns].
    destruct (IH _ _ Hs) as [Hev' Hg']. split.
    + rewrite Hev', Hev. cbn [sweep_events flat_map]. now rewrite <- app_assoc.
    + intros Hsizes. inversion Hsizes as [|? ? Hn Hrest]; subst.
      rewrite Hg' by exact Hrest. rewrite Hg, fill_matrices_rng by exact Hn.
      rewrite rng_after_add. reflexivity.
Qed.

(** X9.  Seed-based reproducibility: when every size [n] has
    [n*n <= INT_MAX], a completed sweep has drawn exactly the [2*n*n]
    numbers of each size's fill from the generator seeded at start-up, one
    size after the other; the measured runs draw nothing, so the matrices
    of each size are the same whatever the run count. *)
Theorem sweep_draws (fuel : nat) (cfg : Config) (fs : gmap string string) (w : W)
    status (st : @State D G W) :
  cfg_runs cfg <= INT_MAX ->
  Forall (fun n => n * n <= INT_MAX) (cfg_sizes cfg) ->
  run_benchmark (F:=F) fuel cfg fs w = Some (status, st) ->
  st_rng st = rng_after (srand (cfg_seed cfg)) (fill_draws (cfg_sizes cfg)).
Proof.
  intros Hruns Hsizes. unfold run_benchmark.
  destruct (sweep _ _ _ _ _ _ _ _) as [st1|] eqn:E; [|discriminate].
  intros [= <- <-].
  apply sweep_trace in E as [_ Hg]; [|exact Hruns]. now apply Hg.
Qed.

(** X11.  With the run count [INT_MAX] the run loop's counter wraps instead
    of passing the bound: on a non-empty size list the sweep does not
    complete, whatever the fuel. *)
Theorem sweep_int_max_runs (fuel : nat) (cfg : Config) (fs : gmap string string) (w : W) :
  cfg_runs cfg = INT_MAX -> cfg_sizes cfg <> [] ->
  run_benchmark (F:=F) (D:=D) (G:=G) fuel cfg fs w = None.
Proof.
  intros Hruns Hsizes. unfold run_benchmark.
  destruct (cfg_sizes cfg) as [|n sizes]; [contradiction|].
  cbn [sweep]. unfold size_iteration.
  destruct (fill_matrices n _) as [[A B] g].
  rewrite Hruns, for_le_diverges; [reflexivity|].
  unfold in_range, INT_MIN, INT_MAX. lia.
Qed.

(** X12.  When the process-memory query fails at every sample, every record
    of the sweep has peak memory 0.0: the failure is replaced by zero and
    the run is recorded all the same. *)
Theorem memory_query_failure (fuel : nat) (cfg : Config) (fs : gmap string string) (w : W)
    status (st : @State D G W) :
  (forall w', (GetProcessMemoryInfo w').1 = None) ->
  run_benchmark (F:=F) fuel cfg fs w = Some (status, st) ->
  Forall (fun r => rec_peak_mib r = fzero) (st_records st).
Proof.
  intros Hfail.
  assert (Hmem : forall w', (current_mem_mib (D:=D) w').1 = fzero).
  { intros w'. unfold current_mem_mib. specialize (Hfail w').
    destruct (GetProcessMemoryInfo w') as [[ws|] w'']; [discriminate|reflexivity]. }
  unfold run_benchmark.
  destruct (sweep _ _ _ _ _ _ _ _) as [st1|] eqn:E; [|discriminate].
  intros [= <- <-]. revert E.
  apply (sweep_invariant (fun st => Forall (fun r => rec_peak_mib r = fzero) (st_records st))).
  - intros n A B r C st0 HQ. unfold measured_run.
    pose proof (Hmem (st_world st0)) as H1.
    destruct (current_mem_mib (st_world st0)) as [mb w1]. cbn [fst] in H1.
    destruct (proc_cpu_seconds w1) as [c0 w2].
    destruct (now_sec w2) as [t0 w3]. destruct (now_sec w3) as [t1 w4].
    destruct (proc_cpu_seconds w4) as [c1 w5].
    pose proof (Hmem w5) as H2.
    destruct (current_mem_mib w5) as [ma w6]. cbn [fst] in H2. subst mb ma.
    cbn [snd st_records]. apply Forall_app. split; [exact HQ|].
    constructor; [|constructor]. cbn [rec_peak_mib]. now destruct (fgtb fzero fzero).
  - intros st0 g ev HQ. exact HQ.
  - constructor.
Qed.

(** X13.  The CPU time is the sum of the kernel and user tick counts over
    [10^7]: for [FILETIME]s whose halves are [DWORD]s, the two halves are
    combined as [low + 2^32 * high], the two counts are added in 64 bits,
    and the sum is divided by [1e7]; the sum does not wrap when both high
    halves are below [2^31]. *)
Theorem proc_cpu_seconds_ticks (w : W) :
  let '((kt, ut), w') := GetProcessTimes w in
  is_dword (dwLowDateTime kt) -> is_dword (dwHighDateTime kt) ->
  is_dword (dwLowDateTime ut) -> is_dword (dwHighDateTime ut) ->
  proc_cpu_seconds (D:=D) w
  = (fdiv (f_of_int ((filetime_ticks kt + filetime_ticks ut) mod 2 ^ 64))
          (f_of_int 10000000), w') /\
  (dwHighDateTime kt < 2147483648 -> dwHighDateTime ut < 2147483648 ->
   proc_cpu_seconds (D:=D) w
   = (fdiv (f_of_int (filetime_ticks kt + filetime_ticks ut)) (f_of_int 10000000), w')).
Proof.
  unfold proc_cpu_seconds.
  destruct (GetProcessTimes w) as [[kt ut] w'].
  intros Hkl Hkh Hul Huh.
  assert (Hlor : forall lo hi, is_dword lo -> is_dword hi ->
            Z.lor lo (Z.shiftl hi 32) = lo + 4294967296 * hi).
  { intros lo hi Hlo Hhi. unfold is_dword in *.
    rewrite Z.shiftl_mul_pow2 by lia. change (2 ^ 32) with 4294967296.
    rewrite <- Z.add_nocarry_lor; [lia|].
    apply Z.bits_inj'. intros k Hk. rewrite Z.land_spec, Z.bits_0.
    destruct (Z.lt_ge_cases k 32).
    - change 4294967296 with (2 ^ 32).
      rewrite (Z.mul_pow2_bits_low hi 32 k) by lia. apply andb_false_r.
    - rewrite (Z.bits_above_log2 lo k); [reflexivity|lia|].
      destruct (Z.eq_dec lo 0) as [->|]; [cbn; lia|].
      apply Z.log2_lt_pow2; [lia|].
      apply Z.lt_le_trans with (2 ^ 32); [lia|].
      apply Z.pow_le_mono_r; lia. }
  rewrite !Hlor by assumption. unfold filetime_ticks. split; [reflexivity|].
  intros Hk Hu. rewrite Z.mod_small; [reflexivity|].
  unfold is_dword in *. lia.
Qed.

End SweepTrace.

(** ** The shape of the run identifier and of the record lines *)

Lemma string_length_app (a b : string) :
  String.length (a +:+ b) = (String.length a + String.length b)%nat.
Proof.
  induction a as [|x a IH]; [reflexivity|].
  rewrite string_app_cons. cbn [String.length]. now rewrite IH.
Qed.

Lemma count_char_app c (a b : string) :
  count_char c (a +:+ b) = (count_char c a + count_char c b)%nat.
Proof.
  induction a as [|x a IH]; [reflexivity|].
  rewrite string_app_cons. cbn [count_char]. rewrite IH. lia.
Qed.

Lemma count_char_digits c s :
  isdigit c = false -> all_digits s = true -> count_char c s = 0%nat.
Proof.
  intros Hc. induction s as [|x s IH]; [reflexivity|].
  cbn [all_digits count_char]. intros [Hx Hs]%andb_true_iff.
  rewrite (isdigit_not_char x c) by assumption. now rewrite IH.
Qed.

(** A character that is neither a digit nor the minus sign does not occur
    in what [%d] prints. *)
Lemma count_char_pretty c (z : Z) :
  isdigit c = false -> c <> "-"%char -> count_char c (pretty z) = 0%nat.
Proof.
  intros Hc Hm. destruct (Z.le_gt_cases 0 z) as [Hpos|Hneg].
  - apply count_char_digits; [exact Hc|apply pretty_nonneg, Hpos].
  - destruct z as [|x|x]; try lia. rewrite pretty_negative. cbn [count_char].
    destruct (Ascii.eqb_spec "-"%char c) as [<-|_]; [contradiction|].
    apply count_char_digits; [exact Hc|apply pretty_nonneg; lia].
Qed.

Lemma length_pretty_N_go_ge x :
  forall s, (String.length s <= String.length (pretty_N_go x s))%nat.
Proof.
  induction (N.lt_wf_0 x) as [x _ IH]. intros s.
  destruct (N.eq_dec x 0%N) as [->|Hx]; [now rewrite pretty_N_go_0|].
  rewrite pretty_N_go_step by lia.
  specialize (IH (x `div` 10)%N ltac:(apply N.div_lt; lia)
                 (String (pretty_N_char (x `mod` 10)) s)).
  cbn [String.length] in IH. lia.
Qed.

Lemma length_pretty_N_go_le k :
  forall x s,
    (x < 10 ^ N.of_nat k)%N ->
    (String.length (pretty_N_go x s) <= String.length s + k)%nat.
Proof.
  induction k as [|k IH]; intros x s Hx.
  - assert (x = 0%N) as -> by (cbn in Hx; lia). rewrite pretty_N_go_0. lia.
  - destruct (N.eq_dec x 0%N) as [->|Hx0]; [rewrite pretty_N_go_0; lia|].
    rewrite pretty_N_go_step by lia.
    specialize (IH (x `div` 10)%N (String (pretty_N_char (x `mod` 10)) s)).
    cbn [String.length] in IH. rewrite Nat2N.inj_succ, N.pow_succ_r' in Hx.
    assert (x `div` 10 < 10 ^ N.of_nat k)%N
      by (apply N.Div0.div_lt_upper_bound; lia).
    lia.
Qed.

(** The number of characters [%02d] prints for a value below [10^k]. *)
Lemma fmt_02d_length k (z : Z) :
  (2 <= k)%nat -> 0 <= z < 10 ^ Z.of_nat k ->
  (2 <= String.length (fmt_02d z) <= k)%nat.
Proof.
  intros Hk Hz. unfold fmt_02d.
  assert (Hup : (String.length (pretty z) <= k)%nat).
  { destruct z as [|x|x]; [cbn; lia| |lia].
    change (pretty (Z.pos x)) with (pretty (N.pos x)).
    unfold pretty, pretty_N. destruct (decide (N.pos x = 0%N)); [discriminate|].
    etransitivity; [apply length_pretty_N_go_le with (k := k)|cbn; lia].
    apply N2Z.inj_lt. rewrite N2Z.inj_pow, nat_N_Z. cbn. lia. }
  destruct (Z.leb_spec 0 z); [|lia]. destruct (Z.ltb_spec z 10); cbn [andb].
  - rewrite string_length_app. cbn [String.length].
    assert (String.length (pretty z) = 1%nat) as ->; [|lia].
    assert (z = 0 \/ z = 1 \/ z = 2 \/ z = 3 \/ z = 4 \/ z = 5 \/ z = 6 \/ z = 7
            \/ z = 8 \/ z = 9) as Hc by lia.
    repeat (destruct Hc as [->|Hc]); try subst z; reflexivity.
  - split; [|exact Hup].
    destruct z as [|x|x]; try lia.
    change (pretty (Z.pos x)) with (pretty (N.pos x)).
    unfold pretty, pretty_N. destruct (decide (N.pos x = 0%N)); [discriminate|].
    rewrite pretty_N_go_step by lia.
    rewrite pretty_N_go_step
      by (apply N.div_str_pos; lia).
    etransitivity; [|apply length_pretty_N_go_ge]. cbn [String.length]. lia.
Qed.

Lemma fmt_02d_digits (z : Z) : 0 <= z -> all_digits (fmt_02d z) = true.
Proof.
  intros Hz. unfold fmt_02d. destruct (pretty_nonneg z Hz) as (Hd & _).
  destruct (_ && _); [|exact Hd]. cbn. exact Hd.
Qed.

Section RecordLines.

Context {F : Type} {FO : FloatOps F}.
Context {D : Type} {DO : FloatOps D} {SIO : Stdio D}.
Context {G : Type} {RG : Rng G}.
Context {W : Type} {PF : Platform W F}.

Lemma run_id_count c (w : W) :
  (let '(d, mo, h, mi) := GetLocalTime w in 0 <= d /\ 0 <= mo /\ 0 <= h /\ 0 <= mi) ->
  isdigit c = false ->
  count_char c (run_id_str w) = (3 * count_char c "/")%nat.
Proof.
  unfold run_id_str. destruct (GetLocalTime w) as [[[d mo] h] mi].
  intros (Hd & Hmo & Hh & Hmi) Hc.
  rewrite !count_char_app.
  rewrite !(count_char_digits c (fmt_02d _)) by (auto using fmt_02d_digits).
  lia.
Qed.

(** X14.  The run identifier is four decimal fields separated by three
    slashes: for field values a [WORD] can hold it has between 11 and 23
    characters, so it always fits the 32-byte buffer without truncation,
    it contains no character other than digits and slashes, and for
    two-digit fields it has exactly the 11 characters of [DD/MM/HH/MM]. *)
Theorem run_id_shape (w : W) :
  let '(d, mo, h, mi) := GetLocalTime w in
  0 <= d < 65536 -> 0 <= mo < 65536 -> 0 <= h < 65536 -> 0 <= mi < 65536 ->
  (11 <= String.length (run_id_str w) <= 23)%nat /\
  count_char "/" (run_id_str w) = 3%nat /\
  (forall c, isdigit c = false -> c <> "/"%char -> count_char c (run_id_str w) = 0%nat) /\
  (d < 100 -> mo < 100 -> h < 100 -> mi < 100 ->
   String.length (run_id_str w) = 11%nat).
Proof.
  pose proof (run_id_count "/" w) as Hslash.
  pose proof (fun c => run_id_count c w) as Hother.
  unfold run_id_str in *. destruct (GetLocalTime w) as [[[d mo] h] mi].
  intros Hd Hmo Hh Hmi.
  assert (Hlen : forall z, 0 <= z < 65536 -> (2 <= String.length (fmt_02d z) <= 5)%nat).
  { intros z Hz. apply fmt_02d_length; [lia|]. cbn. lia. }
  assert (Hlen2 : forall z, 0 <= z < 100 -> String.length (fmt_02d z) = 2%nat).
  { intros z Hz. pose proof (fmt_02d_length 2 z). cbn in *. lia. }
  pose proof (Hlen d Hd). pose proof (Hlen mo Hmo).
  pose proof (Hlen h Hh). pose proof (Hlen mi Hmi).
  rewrite !string_length_app. cbn [String.length].
  split; [lia|]. split; [|split].
  - rewrite Hslash by (try reflexivity; lia). reflexivity.
  - intros c Hc Hne. rewrite Hother by (try assumption; lia).
    cbn [count_char]. destruct (Ascii.eqb_spec "/"%char c); [congruence|reflexivity].
  - intros. rewrite !Hlen2 by lia. reflexivity.
Qed.

Lemma format_record_count c (r : @BenchRecord D) :
  isdigit c = false -> c <> "-"%char ->
  count_char c (rec_run_id r) = 0%nat -> count_char c (rec_language r) = 0%nat ->
  (forall k x, count_char c (fmt_f k x) = 0%nat) ->
  count_char c (format_record r)
  = (6 * count_char c ";" + count_char c newline)%nat.
Proof.
  intros Hc Hm Hid Hlang Hf. unfold format_record, fmt_d.
  rewrite !count_char_app, Hid, Hlang, !Hf, !count_char_pretty by assumption.
  lia.
Qed.

Lemma sweep_lines_well_formed fuel runs out ncpu sizes (w : W) :
  (forall k x, count_char ";" (fmt_f k x) = 0%nat /\
               count_char "010" (fmt_f k x) = 0%nat) ->
  (let '(d, mo, h, mi) := GetLocalTime w in 0 <= d /\ 0 <= mo /\ 0 <= h /\ 0 <= mi) ->
  forall st st' : @State D G W,
    Forall (fun r => count_char ";" (format_record r) = 6%nat /\
                     count_char "010" (format_record r) = 1%nat) (st_records st) ->
    sweep (F:=F) fuel runs out (run_id_str w) "C" ncpu sizes st = Some st' ->
    Forall (fun r => count_char ";" (format_record r) = 6%nat /\
                     count_char "010" (format_record r) = 1%nat) (st_records st').
Proof.
  intros Hf Htime.
  apply (sweep_invariant
           (fun st => Forall (fun r => count_char ";" (format_record r) = 6%nat /\
                                       count_char "010" (format_record r) = 1%nat)
                             (st_records st))).
  - intros n A B r C st0 HQ.
    destruct (measured_run_full out (run_id_str w) "C" ncpu n A B r C st0)
      as (rec & Hid & Hlang & _ & _ & Hrec & _).
    cbn zeta in *. rewrite Hrec. apply Forall_app. split; [exact HQ|].
    constructor; [|constructor].
    split; rewrite format_record_count; try reflexivity; try discriminate;
      try (rewrite Hlang; reflexivity); try (intros; apply Hf);
      rewrite Hid, run_id_count by (try reflexivity; exact Htime); reflexivity.
  - intros st0 g ev HQ. exact HQ.
Qed.

Lemma count_char_concat_lines c (l : list string) k :
  Forall (fun s => count_char c s = k) l ->
  count_char c (concat_lines l) = (length l * k)%nat.
Proof.
  induction 1 as [|s l Hs _ IH]; [reflexivity|].
  cbn [concat_lines length]. rewrite count_char_app, Hs, IH. lia.
Qed.

(** X15.  The record lines are well-formed: provided [%.Nf] prints neither
    a semicolon nor a line break and the local-time fields are not
    negative, every record line of a completed sweep has exactly six
    semicolons, as the header has, and exactly one line break; and when the
    file did not exist before, it ends up with [1 + |S|*runs] lines of
    seven fields each. *)
Theorem record_lines_well_formed (fuel : nat) (cfg : Config) (fs : gmap string string)
    (w : W) status (st : @State D G W) :
  (forall k x, count_char ";" (fmt_f k x) = 0%nat /\
               count_char "010" (fmt_f k x) = 0%nat) ->
  (let '(d, mo, h, mi) := GetLocalTime w in 0 <= d /\ 0 <= mo /\ 0 <= h /\ 0 <= mi) ->
  run_benchmark (F:=F) fuel cfg fs w = Some (status, st) ->
  Forall (fun r => count_char ";" (format_record r) = 6%nat /\
                   count_char "010" (format_record r) = 1%nat) (st_records st) /\
  count_char ";" HEADER = 6%nat /\ count_char "010" HEADER = 1%nat /\
  (fs !! cfg_out cfg = None -> cfg_runs cfg <= INT_MAX ->
   exists content,
     st_fs st !! cfg_out cfg = Some content /\
     count_char "010" content
     = (1 + length (cfg_sizes cfg) * Z.to_nat (cfg_runs cfg))%nat /\
     count_char ";" content
     = (6 * (1 + length (cfg_sizes cfg) * Z.to_nat (cfg_runs cfg)))%nat).
Proof.
  intros Hf Htime. unfold run_benchmark.
  destruct (sweep _ _ _ _ _ _ _ _) as [st1|] eqn:E; [|discriminate].
  intros [= <- <-].
  assert (Hrecs : Forall (fun r => count_char ";" (format_record r) = 6%nat /\
                   count_char "010" (format_record r) = 1%nat) (st_records st1)).
  { eapply sweep_lines_well_formed in E; eauto. }
  split; [exact Hrecs|]. split; [reflexivity|]. split; [reflexivity|].
  intros Hnew Hruns.
  eapply sweep_effect in E as (recs & H1 & H2 & H3);
    [|exact Hruns|apply write_header_lookup].
  cbn [st_records app] in H1. subst recs. rewrite Hnew in H3. cbn [default] in H3.
  eexists. split; [exact H3|].
  assert (length (st_records st1)
          = (length (cfg_sizes cfg) * Z.to_nat (cfg_runs cfg))%nat) as Hlen
    by (rewrite <- (length_map record_key), H2; apply length_sweep_keys).
  rewrite !count_char_app.
  rewrite (count_char_concat_lines ";" _ 6), (count_char_concat_lines "010" _ 1).
  - rewrite !length_map, Hlen. change (count_char ";" HEADER) with 6%nat.
    change (count_char "010" HEADER) with 1%nat. lia.
  - apply Forall_map. eapply Forall_impl; [exact Hrecs|]. now intros r [_ ?].
  - apply Forall_map. eapply Forall_impl; [exact Hrecs|]. now intros r [? _].
Qed.

End RecordLines.

(** ** The further properties at concrete inputs *)

Lemma count_char_zeros c k :
  c <> "0"%char ->
  count_char c (String.concat EmptyString (repeat "0"%string k)) = 0%nat.
Proof.
  intros Hc. induction k as [|k IH]; [reflexivity|].
  assert (count_char c "0" = 0%nat) as H0.
  { cbn [count_char]. destruct (Ascii.eqb_spec "0"%char c); [congruence|reflexivity]. }
  destruct k as [|k]; [exact H0|].
  change (String.concat EmptyString (repeat "0"%string (S (S k))))
    with ("0" +:+ (EmptyString +:+ String.concat EmptyString (repeat "0"%string (S k))))%string.
  rewrite !count_char_app, H0, IH. reflexivity.
Qed.

Lemma count_char_zero_pad c k s :
  c <> "0"%char -> count_char c (zero_pad k s) = count_char c s.
Proof.
  intros Hc. unfold zero_pad. now rewrite count_char_app, count_char_zeros.
Qed.

(** The simulated [%.Nf] prints digits, a sign, a point and the words for
    the special values only. *)
Lemma fmt_fixed_clean c k x :
  c = ";"%char \/ c = "010"%char -> count_char c (fmt_fixed k x) = 0%nat.
Proof.
  intros Hc.
  assert (isdigit c = false /\ c <> "-"%char /\ c <> "0"%char /\
          count_char c "-" = 0%nat /\ count_char c "." = 0%nat /\
          count_char c "nan" = 0%nat /\ count_char c "inf" = 0%nat /\
          count_char c "-inf" = 0%nat /\ count_char c "0." = 0%nat)
    as (Hd & Hm & H0 & Hcm & Hcp & Hnan & Hinf & Hminf & Hz)
    by (destruct Hc as [-> | ->]; repeat split; discriminate).
  destruct x as [s|s| |s m e]; cbn [fmt_fixed].
  - rewrite !count_char_app, count_char_zero_pad, Hz by exact H0.
    destruct s; [rewrite Hcm|]; reflexivity.
  - destruct s; [exact Hminf|exact Hinf].
  - exact Hnan.
  - destruct (Z.leb 0 e); cbv zeta;
      rewrite !count_char_app, count_char_zero_pad, !count_char_pretty, Hcp
        by assumption;
      destruct s; [rewrite Hcm| |rewrite Hcm|]; reflexivity.
Qed.

Lemma sim_run_completes (PF : Platform Z spec_float) (sizes : list Z) :
  is_Some (@run_benchmark spec_float binary32 spec_float binary64 sim_stdio
             (Z * nat) msvc_rng Z PF 3 (mkConfig sizes 2 "out.csv" 27) ∅ 0).
Proof.
  apply run_benchmark_complete; cbn; [unfold INT_MAX|]; lia.
Qed.

Lemma console_mirrors_records_witness :
  exists status st,
    sim_run_benchmark 3 (mkConfig [2; 3] 2 "out.csv" 27) ∅ 0 = Some (status, st) /\
    st_console st = map (@format_console _ sim_stdio) (st_records st).
Proof.
  destruct (sim_run_completes sim_platform [2; 3]) as [[status st] Hrun].
  exact (ex_intro _ status (ex_intro _ st (conj Hrun
    (@console_mirrors_records spec_float binary32 spec_float binary64 sim_stdio
       (Z * nat) msvc_rng Z sim_platform 3 _ ∅ 0 status st Hrun)))).
Defined.

Lemma other_files_untouched_witness :
  "notes.txt"%string <> cfg_out (mkConfig [2; 3] 2 "out.csv" 27) /\
  exists status st,
    @run_benchmark spec_float binary32 spec_float binary64 sim_stdio
      (Z * nat) msvc_rng Z sim_platform 3 (mkConfig [2; 3] 2 "out.csv" 27)
      {[ "notes.txt"%string := "kept"%string ]} 0 = Some (status, st) /\
    st_fs st !! "notes.txt"%string
    = ({[ "notes.txt"%string := "kept"%string ]} : gmap string string) !! "notes.txt"%string.
Proof.
  assert (Hne : "notes.txt"%string <> cfg_out (mkConfig [2; 3] 2 "out.csv" 27))
    by discriminate.
  refine (conj Hne _).
  destruct (@run_benchmark_complete spec_float binary32 spec_float binary64 sim_stdio
              (Z * nat) msvc_rng Z sim_platform 3 (mkConfig [2; 3] 2 "out.csv" 27)
              {[ "notes.txt"%string := "kept"%string ]} 0)
    as [[status st] Hrun]; [unfold INT_MAX; cbn; lia|cbn; lia|].
  exact (ex_intro _ status (ex_intro _ st (conj Hrun
    (@other_files_untouched spec_float binary32 spec_float binary64 sim_stdio
       (Z * nat) msvc_rng Z sim_platform 3 _ _ 0 status st "notes.txt" Hne Hrun)))).
Defined.

Lemma records_share_run_id_witness :
  exists status st,
    sim_run_benchmark 3 (mkConfig [2; 3] 2 "out.csv" 27) ∅ 0 = Some (status, st) /\
    Forall (fun r => rec_run_id r = run_id_str (PF:=sim_platform) 0 /\
                     rec_language r = "C"%string) (st_records st).
Proof.
  destruct (sim_run_completes sim_platform [2; 3]) as [[status st] Hrun].
  exact (ex_intro _ status (ex_intro _ st (conj Hrun
    (@records_share_run_id spec_float binary32 spec_float binary64 sim_stdio
       (Z * nat) msvc_rng Z sim_platform 3 _ ∅ 0 status st Hrun)))).
Defined.

Lemma sweep_draws_witness :
  cfg_runs (mkConfig [2; 3] 2 "out.csv" 27) <= INT_MAX /\
  Forall (fun n => n * n <= INT_MAX) (cfg_sizes (mkConfig [2; 3] 2 "out.csv" 27)) /\
  exists status st,
    sim_run_benchmark 3 (mkConfig [2; 3] 2 "out.csv" 27) ∅ 0 = Some (status, st) /\
    st_rng st = @rng_after _ msvc_rng (@srand _ msvc_rng 27) (fill_draws [2; 3]).
Proof.
  assert (H1 : cfg_runs (mkConfig [2; 3] 2 "out.csv" 27) <= INT_MAX)
    by (unfold INT_MAX; cbn; lia).
  assert (H2 : Forall (fun n => n * n <= INT_MAX)
                 (cfg_sizes (mkConfig [2; 3] 2 "out.csv" 27)))
    by (repeat constructor; unfold INT_MAX; lia).
  refine (conj H1 (conj H2 _)).
  destruct (sim_run_completes sim_platform [2; 3]) as [[status st] Hrun].
  exact (ex_intro _ status (ex_intro _ st (conj Hrun
    (@sweep_draws spec_float binary32 spec_float binary64 sim_stdio
       (Z * nat) msvc_rng Z sim_platform 3 _ ∅ 0 status st H1 H2 Hrun)))).
Defined.

Lemma sweep_int_max_runs_witness :
  cfg_runs (mkConfig [2] 2147483647 "out.csv" 27) = INT_MAX /\
  cfg_sizes (mkConfig [2] 2147483647 "out.csv" 27) <> [] /\
  sim_run_benchmark 1000 (mkConfig [2] 2147483647 "out.csv" 27) ∅ 0 = None.
Proof.
  assert (H1 : cfg_runs (mkConfig [2] 2147483647 "out.csv" 27) = INT_MAX)
    by reflexivity.
  assert (H2 : cfg_sizes (mkConfig [2] 2147483647 "out.csv" 27) <> [])
    by discriminate.
  exact (conj H1 (conj H2
    (@sweep_int_max_runs spec_float binary32 spec_float binary64 sim_stdio
       (Z * nat) msvc_rng Z sim_platform 1000 _ ∅ 0 H1 H2))).
Defined.

Lemma memory_query_failure_witness :
  (forall w', (@GetProcessMemoryInfo _ _ sim_platform_no_meminfo w').1 = None) /\
  exists status st,
    @run_benchmark spec_float binary32 spec_float binary64 sim_stdio
      (Z * nat) msvc_rng Z sim_platform_no_meminfo 3
      (mkConfig [2; 3] 2 "out.csv" 27) ∅ 0 = Some (status, st) /\
    Forall (fun r => rec_peak_mib r = @fzero _ binary64) (st_records st).
Proof.
  assert (H1 : forall w', (@GetProcessMemoryInfo _ _ sim_platform_no_meminfo w').1 = None)
    by (intros w'; reflexivity).
  refine (conj H1 _).
  destruct (sim_run_completes sim_platform_no_meminfo [2; 3]) as [[status st] Hrun].
  exact (ex_intro _ status (ex_intro _ st (conj Hrun
    (@memory_query_failure spec_float binary32 spec_float binary64 sim_stdio
       (Z * nat) msvc_rng Z sim_platform_no_meminfo 3 _ ∅ 0 status st H1 Hrun)))).
Defined.

Lemma proc_cpu_seconds_ticks_witness :
  is_dword 250 /\ is_dword 0 /\ is_dword 500 /\
  proc_cpu_seconds (DO:=binary64) (PF:=sim_platform) 1000
  = (@fdiv _ binary64 (@f_of_int _ binary64 750) (@f_of_int _ binary64 10000000), 1000).
Proof.
  assert (H1 : is_dword 250) by (unfold is_dword; lia).
  assert (H2 : is_dword 0) by (unfold is_dword; lia).
  assert (H3 : is_dword 500) by (unfold is_dword; lia).
  refine (conj H1 (conj H2 (conj H3 _))).
  exact (proj1 (proc_cpu_seconds_ticks (DO:=binary64) (PF:=sim_platform)
                  1000 H1 H2 H3 H2)).
Defined.

Lemma run_id_shape_witness :
  0 <= 30 < 65536 /\ 0 <= 10 < 65536 /\ 0 <= 11 < 65536 /\ 0 <= 34 < 65536 /\
  30 < 100 /\ 10 < 100 /\ 11 < 100 /\ 34 < 100 /\
  String.length (run_id_str (PF:=sim_platform) 0) = 11%nat /\
  count_char ";" (run_id_str (PF:=sim_platform) 0) = 0%nat.
Proof.
  assert (H1 : 0 <= 30 < 65536) by lia. assert (H2 : 0 <= 10 < 65536) by lia.
  assert (H3 : 0 <= 11 < 65536) by lia. assert (H4 : 0 <= 34 < 65536) by lia.
  assert (K1 : 30 < 100) by lia. assert (K2 : 10 < 100) by lia.
  assert (K3 : 11 < 100) by lia. assert (K4 : 34 < 100) by lia.
  destruct (run_id_shape (PF:=sim_platform) 0 H1 H2 H3 H4)
    as (_ & _ & Hother & Hlen).
  refine (conj H1 (conj H2 (conj H3 (conj H4 (conj K1 (conj K2 (conj K3 (conj K4
           (conj (Hlen K1 K2 K3 K4) (Hother ";"%char eq_refl _)))))))))).
  discriminate.
Defined.

Lemma record_lines_well_formed_witness :
  (forall k x, count_char ";" (@fmt_f _ sim_stdio k x) = 0%nat /\
               count_char "010" (@fmt_f _ sim_stdio k x) = 0%nat) /\
  (∅ : gmap string string) !! cfg_out (mkConfig [2; 3] 2 "out.csv" 27) = None /\
  cfg_runs (mkConfig [2; 3] 2 "out.csv" 27) <= INT_MAX /\
  exists status st,
    sim_run_benchmark 3 (mkConfig [2; 3] 2 "out.csv" 27) ∅ 0 = Some (status, st) /\
    exists content,
      st_fs st !! "out.csv"%string = Some content /\
      count_char "010" content = (1 + length [2; 3]%Z * Z.to_nat 2)%nat.
Proof.
  assert (Hf : forall k x, count_char ";" (@fmt_f _ sim_stdio k x) = 0%nat /\
                           count_char "010" (@fmt_f _ sim_stdio k x) = 0%nat)
    by (intros k x; split; apply fmt_fixed_clean; auto).
  assert (Ht : let '(d, mo, h, mi) := @GetLocalTime _ _ sim_platform 0 in
               0 <= d /\ 0 <= mo /\ 0 <= h /\ 0 <= mi) by (cbn; lia).
  assert (Hnew : (∅ : gmap string string) !! cfg_out (mkConfig [2; 3] 2 "out.csv" 27) = None)
    by reflexivity.
  assert (Hruns : cfg_runs (mkConfig [2; 3] 2 "out.csv" 27) <= INT_MAX)
    by (unfold INT_MAX; cbn; lia).
  refine (conj Hf (conj Hnew (conj Hruns _))).
  destruct (sim_run_completes sim_platform [2; 3]) as [[status st] Hrun].
  destruct (@record_lines_well_formed spec_float binary32 spec_float binary64 sim_stdio
              (Z * nat) msvc_rng Z sim_platform 3 _ ∅ 0 status st Hf Ht Hrun)
    as (_ & _ & _ & Hfile).
  destruct (Hfile Hnew Hruns) as (content & Hc & Hn & _).
  exact (ex_intro _ status (ex_intro _ st (conj Hrun
           (ex_intro _ content (conj Hc Hn))))).
Defined.

(** * Part IV: the records in the file, and a sweep without runs *)

Lemma lines_of_app_line body rest :
  count_char "010" body = 0%nat ->
  lines_of (body +:+ String "010" rest) = body :: lines_of rest.
Proof.
  induction body as [|c body IH]; [reflexivity|].
  rewrite string_app_cons. cbn [count_char lines_of].
  destruct (Ascii.eqb c "010"); [discriminate|]. cbn [Nat.add].
  intros H. now rewrite IH.
Qed.

Lemma split_on_app sep tok rest :
  count_char sep tok = 0%nat ->
  split_on sep (tok +:+ String sep rest) = tok :: split_on sep rest.
Proof.
  induction tok as [|c tok IH].
  - intros _. change (split_on sep (String sep rest) = "" :: split_on sep rest).
    cbn [split_on]. now rewrite Ascii.eqb_refl.
  - rewrite string_app_cons. cbn [count_char split_on].
    destruct (Ascii.eqb c sep); [discriminate|]. cbn [Nat.add].
    intros H. now rewrite IH.
Qed.

Lemma split_on_field sep tok rest :
  count_char sep tok = 0%nat ->
  split_on sep (tok +:+ String sep EmptyString +:+ rest) = tok :: split_on sep rest.
Proof. exact (split_on_app sep tok rest). Qed.

Lemma atoi_pretty (z : Z) : in_range z -> atoi (pretty z) = z.
Proof.
  intros Hz. unfold atoi.
  rewrite strtol_pretty
    by (unfold in_range, INT_MIN, INT_MAX, LONG_MIN, LONG_MAX in *; lia).
  apply wrap_small, Hz.
Qed.

Lemma in_sweep_keys sizes runs n r :
  In (n, r) (sweep_keys sizes runs) -> In n sizes /\ 1 <= r <= runs.
Proof.
  unfold sweep_keys. rewrite in_flat_map. intros (m & Hm & Hin).
  apply in_map_iff in Hin as (k & [= <- <-] & Hk). apply in_seqZ in Hk.
  split; [exact Hm|lia].
Qed.

Section RecordsInFile.

Context {F : Type} {FO : FloatOps F}.
Context {D : Type} {DO : FloatOps D} {SIO : Stdio D}.
Context {G : Type} {RG : Rng G}.
Context {W : Type} {PF : Platform W F}.

(** The line of a record ends with the line break, holds no other, and gives
    back the record's size and run index. *)
Lemma format_record_line run_id (r : @BenchRecord D) :
  (forall k x, count_char "010" (fmt_f k x) = 0%nat) ->
  count_char ";" run_id = 0%nat -> count_char "010" run_id = 0%nat ->
  readable run_id r ->
  exists body,
    format_record r = (body +:+ String "010" EmptyString)%string /\
    count_char "010" body = 0%nat /\
    line_key body = record_key r.
Proof.
  intros Hf Hsemi Hnl (Hid & Hlang & Hsize & Hidx).
  exists (rec_run_id r +:+ ";" +:+ rec_language r +:+ ";" +:+
          fmt_d (rec_size r) +:+ ";" +:+ fmt_d (rec_run_idx r) +:+ ";" +:+
          fmt_f 3 (rec_time_ms r) +:+ ";" +:+ fmt_f 1 (rec_cpu_pct r) +:+ ";" +:+
          fmt_f 2 (rec_peak_mib r))%string.
  split; [|split].
  - unfold format_record, newline. now rewrite !string_app_assoc.
  - unfold fmt_d. rewrite !count_char_app, Hid, Hlang, Hnl, !Hf,
      !count_char_pretty by (reflexivity || discriminate).
    reflexivity.
  - unfold line_key, record_key, fmt_d.
    rewrite Hid, Hlang.
    rewrite (split_on_field ";" run_id) by exact Hsemi.
    rewrite (split_on_field ";" "C") by reflexivity.
    rewrite (split_on_field ";" (pretty (rec_size r)))
      by (apply count_char_pretty; [reflexivity|discriminate]).
    rewrite (split_on_field ";" (pretty (rec_run_idx r)))
      by (apply count_char_pretty; [reflexivity|discriminate]).
    cbn [nth]. now rewrite !atoi_pretty.
Qed.

Lemma record_lines run_id (recs : list (@BenchRecord D)) :
  (forall k x, count_char "010" (fmt_f k x) = 0%nat) ->
  count_char ";" run_id = 0%nat -> count_char "010" run_id = 0%nat ->
  Forall (readable run_id) recs ->
  length (lines_of (concat_lines (map format_record recs))) = length recs /\
  map line_key (lines_of (concat_lines (map format_record recs)))
  = map record_key recs.
Proof.
  intros Hf Hsemi Hnl. induction 1 as [|r recs Hr _ [IHlen IHkey]]; [split; reflexivity|].
  destruct (format_record_line run_id r Hf Hsemi Hnl Hr) as (body & Hbody & Hcount & Hkey).
  cbn [map concat_lines]. rewrite Hbody, string_app_assoc.
  change (String "010" EmptyString +:+ ?x)%string with (String "010"%char x).
  rewrite lines_of_app_line by exact Hcount.
  cbn [length map]. now rewrite IHlen, IHkey, Hkey.
Qed.

Lemma sweep_records_run_id fuel runs out ncpu sizes (w : W) :
  forall st st' : @State D G W,
    Forall (fun r => rec_run_id r = run_id_str w /\ rec_language r = "C"%string)
           (st_records st) ->
    sweep (F:=F) fuel runs out (run_id_str w) "C" ncpu sizes st = Some st' ->
    Forall (fun r => rec_run_id r = run_id_str w /\ rec_language r = "C"%string)
           (st_records st').
Proof.
  apply (sweep_invariant
           (fun st => Forall (fun r => rec_run_id r = run_id_str w /\
                                       rec_language r = "C"%string) (st_records st))).
  - intros n A B r C st0 HQ.
    destruct (measured_run_full out (run_id_str w) "C" ncpu n A B r C st0)
      as (rec & Hid & Hlang & _ & _ & Hrec & _).
    cbn zeta in *. rewrite Hrec. apply Forall_app. split; [exact HQ|].
    constructor; [auto|constructor].
  - intros st0 g ev HQ. exact HQ.
Qed.

(** C3.  For every configuration with a list [S] of ([int]) sizes and a run
    count [runs >= 1], a completed sweep has appended to the file, after
    what sink preparation left there, exactly [|S| * runs] lines, and the
    size and run-index fields of these lines, read back from the file, are
    in size-major, run-minor order with run indices [1..runs]; when the
    file did not exist the lines of the file are the single header line
    followed by these data lines.  The appended records are those of the
    log, in that order.  ([%.Nf] is taken to print no line break and the
    local time to have no negative field.)  The sweep completes whenever
    [runs < INT_MAX], given enough fuel. *)
Theorem sweep_record_order (fuel : nat) (cfg : Config) (fs : gmap string string) (w : W) :
  (forall k x, count_char "010" (fmt_f k x) = 0%nat) ->
  (let '(d, mo, h, mi) := GetLocalTime w in 0 <= d /\ 0 <= mo /\ 0 <= h /\ 0 <= mi) ->
  Forall in_range (cfg_sizes cfg) ->
  1 <= cfg_runs cfg <= INT_MAX ->
  (forall status (st : @State D G W),
     run_benchmark (F:=F) fuel cfg fs w = Some (status, st) ->
     status = 0 /\
     exists data,
       st_fs st !! cfg_out cfg
       = Some (default HEADER (fs !! cfg_out cfg) +:+ data)%string /\
       length (lines_of data)
       = (length (cfg_sizes cfg) * Z.to_nat (cfg_runs cfg))%nat /\
       map line_key (lines_of data) = sweep_keys (cfg_sizes cfg) (cfg_runs cfg) /\
       (fs !! cfg_out cfg = None ->
        lines_of (HEADER +:+ data) = HEADER_LINE :: lines_of data) /\
       data = concat_lines (map format_record (st_records st)) /\
       map record_key (st_records st) = sweep_keys (cfg_sizes cfg) (cfg_runs cfg)) /\
  (cfg_runs cfg < INT_MAX -> (Z.to_nat (cfg_runs cfg) < fuel)%nat ->
   is_Some (run_benchmark (F:=F) (D:=D) (G:=G) fuel cfg fs w)).
Proof.
  intros Hf Htime Hsizes [Hlo Hhi]. split.
  - intros status st. unfold run_benchmark.
    destruct (sweep _ _ _ _ _ _ _ _) as [st1|] eqn:E; [|discriminate].
    intros [= <- <-]. split; [reflexivity|].
    pose proof (fun H => sweep_records_run_id _ _ _ _ _ _ _ _ H E) as Hids.
    specialize (Hids ltac:(constructor)).
    eapply sweep_effect in E as (recs & H1 & H2 & H3);
      [|exact Hhi|apply write_header_lookup].
    cbn [st_records app] in H1. subst recs.
    assert (Hsemi : count_char ";" (run_id_str w) = 0%nat)
      by (rewrite run_id_count by (try reflexivity; exact Htime); reflexivity).
    assert (Hnl : count_char "010" (run_id_str w) = 0%nat)
      by (rewrite run_id_count by (try reflexivity; exact Htime); reflexivity).
    assert (Hread : Forall (readable (run_id_str w)) (st_records st1)).
    { apply List.Forall_forall. intros r Hr.
      rewrite List.Forall_forall in Hids. destruct (Hids r Hr) as [Hid Hlang].
      assert (In (record_key r) (sweep_keys (cfg_sizes cfg) (cfg_runs cfg))) as Hk
        by (rewrite <- H2; now apply in_map).
      apply in_sweep_keys in Hk as [Hn Hr1].
      rewrite List.Forall_forall in Hsizes.
      repeat split; auto; try (apply Hsizes, Hn);
        unfold INT_MIN, INT_MAX in *; lia. }
    destruct (record_lines _ _ Hf Hsemi Hnl Hread) as [Hlen Hkeys].
    eexists. split; [exact H3|]. split; [|split; [|split; [|split]]].
    + rewrite Hlen, <- (length_map record_key), H2. apply length_sweep_keys.
    + now rewrite Hkeys.
    + intros _. unfold HEADER, newline. rewrite string_app_assoc.
      change (String "010" EmptyString +:+ ?x)%string with (String "010"%char x).
      now rewrite lines_of_app_line.
    + reflexivity.
    + exact H2.
  - intros Hlt Hfuel. now apply run_benchmark_complete.
Qed.

End RecordsInFile.

Section NoRuns.

Context {F : Type} {FO : FloatOps F}.
Context {D : Type} {DO : FloatOps D} {SIO : Stdio D}.
Context {G : Type} {RG : Rng G}.
Context {W : Type} {PF : Platform W F}.





End NoRuns.

(** ** The two theorems at concrete inputs *)

Lemma sweep_record_order_witness :
  (forall k x, count_char "010" (@fmt_f _ sim_stdio k x) = 0%nat) /\
  Forall in_range (cfg_sizes (mkConfig [4; 8] 2 "out.csv" 27)) /\
  1 <= cfg_runs (mkConfig [4; 8] 2 "out.csv" 27) <= INT_MAX /\
  exists status st,
    sim_run_benchmark 3 (mkConfig [4; 8] 2 "out.csv" 27) ∅ 0 = Some (status, st) /\
    status = 0 /\
    exists data,
      st_fs st !! "out.csv"%string = Some (HEADER +:+ data)%string /\
      length (lines_of data) = 4%nat /\
      map line_key (lines_of data) = [(4, 1); (4, 2); (8, 1); (8, 2)] /\
      lines_of (HEADER +:+ data) = HEADER_LINE :: lines_of data.
Proof.
  assert (Hf : forall k x, count_char "010" (@fmt_f _ sim_stdio k x) = 0%nat)
    by (intros k x; apply fmt_fixed_clean; auto).
  assert (Ht : let '(d, mo, h, mi) := @GetLocalTime _ _ sim_platform 0 in
               0 <= d /\ 0 <= mo /\ 0 <= h /\ 0 <= mi) by (cbn; lia).
  assert (Hs : Forall in_range (cfg_sizes (mkConfig [4; 8] 2 "out.csv" 27)))
    by (repeat constructor; discriminate).
  assert (Hr : 1 <= cfg_runs (mkConfig [4; 8] 2 "out.csv" 27) <= INT_MAX)
    by (unfold INT_MAX; cbn; lia).
  assert (Hnew : (∅ : gmap string string) !! cfg_out (mkConfig [4; 8] 2 "out.csv" 27) = None)
    by reflexivity.
  refine (conj Hf (conj Hs (conj Hr _))).
  destruct (sim_run_completes sim_platform [4; 8]) as [[status st] Hrun].
  destruct (@sweep_record_order spec_float binary32 spec_float binary64 sim_stdio
              (Z * nat) msvc_rng Z sim_platform 3
              (mkConfig [4; 8] 2 "out.csv" 27) ∅ 0 Hf Ht Hs Hr) as [Hsound _].
  destruct (Hsound status st Hrun) as (Hstatus & data & Hfile & Hlen & Hkeys & Hhead & _).
  exact (ex_intro _ status (ex_intro _ st (conj Hrun (conj Hstatus
           (ex_intro _ data (conj Hfile (conj Hlen (conj Hkeys (Hhead Hnew))))))))).
Defined.

